(** * The Hume emotional-data processor (hume_processor.py)

    A shallow embedding of [HumeProcessor] and of the properties its
    specification states about it.

    Conventions of the embedding.
    - A Python number is an exact rational ([Q]): the finite floats are
      rationals, comparisons are exact, and [round(x, 2)] as well as the
      [:.Nf] formats round the exact value half-to-even, as CPython does.
      A decimal literal stands for its decimal value; the rounding error of
      float [+], [-] and [*], infinities and NaN are not modelled.  A number
      beyond the range of the floats can only be an [int]; where the code
      converts one to a float, module [Py] raises [OverflowError].
    - A Python [str] is a [string], one character for one character; the
      arrow of the emotional arc is written with its UTF-8 bytes.
    - [list.sort] is a stable sort; it is modelled by a stable insertion
      sort.
    - The record is modelled twice: as the typed shape the specification
      defines, every field optional (the functions of the top level), and
      as an untyped JSON document on which every Python operation may raise
      (module [Py]).  An optional field is a key that may be absent.  The
      second model is related to the first by a refinement theorem. *)

From Stdlib Require Import ZArith QArith Qabs Qround List String Ascii Bool Lia Lqa.
From Stdlib Require Import Permutation Sorted DecimalString.
Import ListNotations.

Local Open Scope string_scope.
Local Open Scope list_scope.
Local Open Scope Z_scope.
Local Open Scope Q_scope.

(** ** Numbers *)

(** The integer nearest to [q], ties going to the even neighbour. *)
Definition round_half_even (q : Q) : Z :=
  let n := Qnum q in
  let d := Zpos (Qden q) in
  let f := (n / d)%Z in
  match (2 * (n mod d) ?= d)%Z with
  | Lt => f
  | Gt => (f + 1)%Z
  | Eq => if Z.even f then f else (f + 1)%Z
  end.

(** [round(q, 2)] *)
Definition round2 (q : Q) : Q := round_half_even (q * 100) # 100.

(** [a < b] on numbers *)
Definition Qlt_bool (a b : Q) : bool := negb (Qle_bool b a).

(** [max(a, b)]: the first argument is kept unless the second is greater. *)
Definition py_max (a b : Q) : Q := if Qlt_bool a b then b else a.

Definition digits (z : Z) : string := NilZero.string_of_uint (N.to_uint (Z.to_N z)).

Fixpoint zero_pad (width : nat) (s : string) : string :=
  match width with
  | O => s
  | S w => if (String.length s <? width)%nat then zero_pad w ("0" ++ s)%string else s
  end.

(** [f"{q:.<prec>f}"] *)
Definition format_f (prec : nat) (q : Q) : string :=
  let scale := (10 ^ Z.of_nat prec)%Z in
  let m := round_half_even (Qabs q * inject_Z scale) in
  let sign := if Qlt_bool q 0 then "-" else "" in
  let frac := match prec with
              | O => ""
              | _ => ("." ++ zero_pad prec (digits (m mod scale)))%string
              end in
  (sign ++ digits (m / scale) ++ frac)%string.

(** ** Sequences *)

(** [l[:n]] *)
Definition slice_to {A : Type} (n : Z) (l : list A) : list A :=
  if (0 <=? n)%Z then firstn (Z.to_nat n) l
  else firstn (Z.to_nat (Z.of_nat (List.length l) + n)) l.

(** [sep.join(parts)] *)
Fixpoint join (sep : string) (parts : list string) : string :=
  match parts with
  | [] => ""
  | [s] => s
  | s :: rest => (s ++ sep ++ join sep rest)%string
  end.

(** [x in l] for a list of strings *)
Definition str_in (x : string) (l : list string) : bool :=
  existsb (String.eqb x) l.

Section StableSort.
Context {A : Type}.
(** [before x y]: [x] may stand in front of [y]. *)
Variable before : A -> A -> bool.

Fixpoint insert (x : A) (l : list A) : list A :=
  match l with
  | [] => [x]
  | y :: l' => if before x y then x :: l else y :: insert x l'
  end.

Definition stable_sort (l : list A) : list A := fold_right insert [] l.
End StableSort.

(** [l.sort(key=key, reverse=True)] *)
Definition sort_desc {A : Type} (key : A -> Q) : list A -> list A :=
  stable_sort (fun x y => Qle_bool (key y) (key x)).

(** [l.sort(key=key)] *)
Definition sort_asc {A : Type} (key : A -> Q) : list A -> list A :=
  stable_sort (fun x y => Qle_bool (key x) (key y)).

(** ** Data model *)

(** [{name, score}] *)
Record EmotionScore := mkEmotionScore {
  e_name : option string;
  e_score : option Q
}.

(** [{begin}] *)
Record TimeSpan := mkTimeSpan {
  ts_begin : option Q
}.

(** [{time: {begin}, text, dominant_emotion: {name, score}}] *)
Record Segment := mkSegment {
  seg_time : option TimeSpan;
  seg_text : option string;
  seg_dominant_emotion : option EmotionScore
}.

(** [{segments}] *)
Record Channel := mkChannel {
  ch_segments : option (list Segment)
}.

(** [{speech_prosody, vocal_burst, language}] *)
Record HumeData := mkHumeData {
  speech_prosody : option Channel;
  vocal_burst : option Channel;
  language : option Channel
}.

(** [{'time', 'emotion', 'score', 'text_snippet'}] *)
Record Peak := mkPeak {
  p_time : Q;
  p_emotion : string;
  p_score : Q;
  p_text_snippet : string
}.

(** [{'time', 'from_emotion', 'to_emotion', 'intensity'}] *)
Record Transition := mkTransition {
  t_time : Q;
  t_from_emotion : string;
  t_to_emotion : string;
  t_intensity : Q
}.

(** [{'time', 'event'}] *)
Record KeyMoment := mkKeyMoment {
  km_time : string;
  km_event : string
}.

(** The summary dictionary; [None] is an absent key. *)
Record Summary := mkSummary {
  overall_mood : option string;
  mood_confidence : option Q;
  emotional_peaks : option (list Peak);
  emotional_transitions : option (list Transition);
  key_moments : option (list KeyMoment);
  emotional_arc : option string
}.

(** [(start, end, reason)] *)
Definition Candidate : Type := Q * Q * string.

Definition c_start (c : Candidate) : Q := fst (fst c).
Definition c_end (c : Candidate) : Q := snd (fst c).
Definition c_reason (c : Candidate) : string := snd c.

(** [**kwargs] of [create_emotional_summary] *)
Record Options := mkOptions {
  opt_threshold : option Q;
  opt_top_n : option Z;
  opt_change_threshold : option Q
}.

(** ** Field access with defaults *)

Definition get {A : Type} (o : option A) (default : A) : A :=
  match o with
  | Some a => a
  | None => default
  end.

Definition empty_emotion : EmotionScore := mkEmotionScore None None.
Definition empty_time : TimeSpan := mkTimeSpan None.
Definition empty_channel : Channel := mkChannel None.

(** [segment.get('dominant_emotion', {})] *)
Definition dominant_of (segment : Segment) : EmotionScore :=
  get (seg_dominant_emotion segment) empty_emotion.

(** [segment.get('time', {}).get('begin', 0)] *)
Definition begin_of (segment : Segment) : Q :=
  get (ts_begin (get (seg_time segment) empty_time)) 0.

(** [hume_data.get(channel, {}).get('segments', [])] *)
Definition segments_of (channel : option Channel) : list Segment :=
  get (ch_segments (get channel empty_channel)) [].

(** ** extract_emotional_peaks *)

Definition prosody_peak (threshold : Q) (segment : Segment) : list Peak :=
  let dominant := dominant_of segment in
  if Qle_bool threshold (get (e_score dominant) 0) then
    [ {| p_time := begin_of segment;
         p_emotion := get (e_name dominant) "Unknown";
         p_score := round2 (get (e_score dominant) 0);
         p_text_snippet := (substring 0 30 (get (seg_text segment) "") ++ "...")%string |} ]
  else [].

Definition burst_peak (threshold : Q) (burst : Segment) : list Peak :=
  let dominant := dominant_of burst in
  if Qle_bool threshold (get (e_score dominant) 0) then
    [ {| p_time := begin_of burst;
         p_emotion := ("VocalBurst:" ++ get (e_name dominant) "Unknown")%string;
         p_score := round2 (get (e_score dominant) 0);
         p_text_snippet := "[Non-verbal expression]" |} ]
  else [].

(** The peaks in the order the two loops append them. *)
Definition emitted_peaks (hume_data : HumeData) (threshold : Q) : list Peak :=
  flat_map (prosody_peak threshold) (segments_of (speech_prosody hume_data))
  ++ flat_map (burst_peak threshold) (segments_of (vocal_burst hume_data)).

Definition extract_emotional_peaks
    (hume_data : HumeData) (top_n : Z) (threshold : Q) : list Peak :=
  slice_to top_n (sort_desc p_score (emitted_peaks hume_data threshold)).

(** ** detect_emotional_transitions *)

(** [a == b] on the results of [.get('name')]: [None] or a string. *)
Definition name_eqb (a b : option string) : bool :=
  match a, b with
  | None, None => true
  | Some s, Some t => String.eqb s t
  | _, _ => false
  end.

(** The body of the loop at index [i]. *)
Definition transition_at (segments : list Segment) (change_threshold : Q) (i : nat)
  : list Transition :=
  match nth_error segments (i - 1), nth_error segments i with
  | Some prev, Some curr =>
      let prev_emotion := dominant_of prev in
      let curr_emotion := dominant_of curr in
      if negb (name_eqb (e_name prev_emotion) (e_name curr_emotion)) then
        if Qle_bool change_threshold (get (e_score curr_emotion) 0) then
          [ {| t_time := begin_of curr;
               t_from_emotion := get (e_name prev_emotion) "Unknown";
               t_to_emotion := get (e_name curr_emotion) "Unknown";
               t_intensity := round2 (get (e_score curr_emotion) 0) |} ]
        else []
      else []
  | _, _ => []
  end.

(** [range(1, n)] *)
Definition range1 (n : nat) : list nat := seq 1 (n - 1).

Definition detect_emotional_transitions
    (hume_data : HumeData) (change_threshold : Q) : list Transition :=
  let segments := segments_of (speech_prosody hume_data) in
  flat_map (transition_at segments change_threshold) (range1 (List.length segments)).

(** ** create_emotional_summary *)

(** [f"{score*100:.0f}"] *)
Definition percent (score : Q) : string := format_f 0 (score * 100).

Definition key_moment (peak : Peak) : KeyMoment :=
  {| km_time := (format_f 1 (p_time peak) ++ "s")%string;
     km_event := (p_emotion peak ++ " (" ++ percent (p_score peak) ++ "%)")%string |}.

(** [if e not in arc_parts: arc_parts.append(e)] *)
Definition arc_add (arc_parts : list string) (e : string) : list string :=
  if negb (str_in e arc_parts) then arc_parts ++ [e] else arc_parts.

Definition arrow : string := " → ".

Definition build_arc (transitions : list Transition) : option string :=
  match transitions with
  | [] => None
  | first :: _ =>
      let arc_parts := arc_add [] (t_from_emotion first) in
      let arc_parts :=
        fold_left (fun parts t => arc_add parts (t_to_emotion t))
                  (slice_to 3 transitions) arc_parts in
      Some (join arrow arc_parts)
  end.

(** The dominant emotion of the first language segment, when
    [language.get('segments')] is a non-empty list. *)
Definition mood_of (hume_data : HumeData) : option EmotionScore :=
  match ch_segments (get (language hume_data) empty_channel) with
  | Some (first :: _) => Some (dominant_of first)
  | _ => None
  end.

(** The summary after the overall-mood block. *)
Definition mood_summary (hume_data : HumeData) : Summary :=
  {| overall_mood := option_map (fun d => get (e_name d) "Unknown") (mood_of hume_data);
     mood_confidence := option_map (fun d => round2 (get (e_score d) 0)) (mood_of hume_data);
     emotional_peaks := None;
     emotional_transitions := None;
     key_moments := None;
     emotional_arc := None |}.

Definition create_emotional_summary
    (hume_data : HumeData) (strategy : string) (kwargs : Options) : Summary :=
  let summary := mood_summary hume_data in
  if (strategy =? "peaks")%string then
    let threshold := get (opt_threshold kwargs) 0.3 in
    let top_n := get (opt_top_n kwargs) 5%Z in
    let peaks := extract_emotional_peaks hume_data top_n threshold in
    {| overall_mood := overall_mood summary;
       mood_confidence := mood_confidence summary;
       emotional_peaks := Some peaks;
       emotional_transitions := None;
       key_moments := None;
       emotional_arc := None |}
  else if (strategy =? "transitions")%string then
    let change_threshold := get (opt_change_threshold kwargs) 0.2 in
    let transitions := detect_emotional_transitions hume_data change_threshold in
    {| overall_mood := overall_mood summary;
       mood_confidence := mood_confidence summary;
       emotional_peaks := None;
       emotional_transitions := Some (slice_to 5 transitions);
       key_moments := None;
       emotional_arc := None |}
  else if (strategy =? "full_summary")%string then
    let peaks := extract_emotional_peaks hume_data 3 0.35 in
    let transitions := detect_emotional_transitions hume_data 0.25 in
    {| overall_mood := overall_mood summary;
       mood_confidence := mood_confidence summary;
       emotional_peaks := None;
       emotional_transitions := None;
       key_moments := Some (map key_moment (slice_to 2 peaks));
       emotional_arc := build_arc transitions |}
  else summary.

(** ** format_for_prompt *)

Definition newline : string := String (ascii_of_nat 10) EmptyString.

Definition format_peak (p : Peak) : string :=
  ("[" ++ format_f 0 (p_time p) ++ "s: " ++ p_emotion p ++ " "
       ++ percent (p_score p) ++ "%]")%string.

Definition format_moment (m : KeyMoment) : string :=
  (km_event m ++ " at " ++ km_time m)%string.

(** The list [lines] when the function returns. *)
Definition prompt_lines (emotional_summary : Summary) : list string :=
  (match overall_mood emotional_summary with
   | Some mood => [("Overall mood: " ++ mood)%string]
   | None => []
   end)
  ++ (match emotional_peaks emotional_summary with
      | Some ((_ :: _) as peaks) =>
          [("Peak moments: " ++ join ", " (map format_peak (slice_to 3 peaks)))%string]
      | _ => []
      end)
  ++ (match emotional_arc emotional_summary with
      | Some arc => [("Emotional journey: " ++ arc)%string]
      | None => []
      end)
  ++ (match key_moments emotional_summary with
      | Some moments =>
          [("Key moments: " ++ join ", " (map format_moment (slice_to 2 moments)))%string]
      | None => []
      end).

Definition format_for_prompt (emotional_summary : Summary) : string :=
  join newline (prompt_lines emotional_summary).

(** ** identify_punchline_candidates *)

Definition reason_of (emotion : string) : string :=
  if str_in emotion ["Amusement"; "Joy"; "Excitement"] then "High humor/joy moment"
  else if str_in emotion ["Sadness"; "Empathic Pain"] then "Emotional/touching moment"
  else if str_in emotion ["Surprise (positive)"; "Surprise (negative)"] then "Unexpected twist"
  else if str_in emotion ["Contemplation"; "Realization"] then "Insightful observation"
  else ("Strong " ++ emotion ++ " moment")%string.

Definition peak_candidate (time_window : Q) (peak : Peak) : Candidate :=
  let start := py_max 0 (p_time peak - time_window) in
  let end_ := p_time peak + time_window in
  (start, end_, reason_of (p_emotion peak)).

Definition burst_candidate (burst : Segment) : Candidate :=
  let time := begin_of burst in
  (py_max 0 (time - 1), time + 1, "Non-verbal expression").

(** [l[-1]], when [l] is not empty *)
Fixpoint last_error {A : Type} (l : list A) : option A :=
  match l with
  | [] => None
  | [x] => Some x
  | _ :: l' => last_error l'
  end.

(** The body of the merge loop. *)
Definition merge_step (merged : list Candidate) (c : Candidate) : list Candidate :=
  let '(start, end_, reason) := c in
  match last_error merged with
  | Some l =>
      if Qle_bool start (c_end l) then
        removelast merged
        ++ [(c_start l, py_max end_ (c_end l), (c_reason l ++ " + " ++ reason)%string)]
      else merged ++ [c]
  | None => merged ++ [c]
  end.

Definition merge_pass (candidates : list Candidate) : list Candidate :=
  fold_left merge_step candidates [].

(** The list [candidates] before it is sorted. *)
Definition candidates_of (hume_data : HumeData) (time_window : Q) : list Candidate :=
  map (peak_candidate time_window) (extract_emotional_peaks hume_data 10 0.25)
  ++ map burst_candidate (segments_of (vocal_burst hume_data)).

Definition identify_punchline_candidates
    (hume_data : HumeData) (time_window : Q) : list Candidate :=
  slice_to 7 (merge_pass (sort_asc c_start (candidates_of hume_data time_window))).

(** ** The examples of the specification *)

Definition seg (t : Q) (n : string) (s : Q) : Segment :=
  mkSegment (Some (mkTimeSpan (Some t))) None (Some (mkEmotionScore (Some n) (Some s))).

Definition example_record : HumeData :=
  mkHumeData (Some (mkChannel (Some [seg 0 "Joy" 0.5; seg 1 "Joy" 0.5; seg 2 "Sadness" 0.4])))
             None None.

Definition low_margin_record : HumeData :=
  mkHumeData (Some (mkChannel (Some [seg 0 "Joy" 0.304]))) None None.

Definition single_segment_record : HumeData :=
  mkHumeData (Some (mkChannel (Some [seg 0 "Joy" 0.5]))) None None.

Definition overlapping_record : HumeData :=
  mkHumeData (Some (mkChannel (Some [seg 10 "Joy" 0.5; seg 11 "Anger" 0.6])))
             (Some (mkChannel (Some [seg 30 "Laugh" 0.1])))
             None.

Definition quiet_record : HumeData :=
  mkHumeData (Some (mkChannel (Some [seg 0 "Calmness" 0.3; seg 4 "Joy" 0.34])))
             None
             (Some (mkChannel (Some [seg 0 "Calmness" 0.8]))).

Definition mixed_record : HumeData :=
  mkHumeData
    (Some (mkChannel (Some [seg 0 "Joy" 0.5; seg 2 "Sadness" 0.4; seg 5 "Joy" 0.7])))
    None None.

Definition unnamed_record : HumeData :=
  mkHumeData
    (Some (mkChannel (Some
       [ mkSegment None None (Some (mkEmotionScore None (Some 0.5)));
         seg 1 "Unknown" 0.5 ])))
    None None.

(** ** Notions used by the statements *)

(** The first occurrences of the elements of [l], in order. *)
Fixpoint distinct (l : list string) : list string :=
  match l with
  | [] => []
  | x :: rest => x :: filter (fun y => negb (String.eqb y x)) (distinct rest)
  end.

(** The segments of both channels whose dominant-emotion score is at least
    the threshold, prosody first. *)
Definition passing_segments (hume_data : HumeData) (threshold : Q) : list Segment :=
  filter (fun s => Qle_bool threshold (get (e_score (dominant_of s)) 0))
         (segments_of (speech_prosody hume_data) ++ segments_of (vocal_burst hume_data)).

(** [a] lies within [b]. *)
Definition within (a b : Candidate) : Prop :=
  c_start b <= c_start a /\ c_end a <= c_end b.

(** The largest finite float, and the numbers within the range of the
    finite floats. *)
Definition max_float : Q := inject_Z (2 ^ 1024 - 2 ^ 971).

Definition float_ranged (q : Q) : Prop := Qabs q <= max_float.

(** Every begin time, and every score taken a hundredfold, of the prosody
    and vocal-burst segments is within the range of the finite floats. *)
Definition within_float_range (hume_data : HumeData) : Prop :=
  Forall (fun s => float_ranged (begin_of s)
                   /\ float_ranged (get (e_score (dominant_of s)) 0 * 100))
         (segments_of (speech_prosody hume_data) ++ segments_of (vocal_burst hume_data)).

(** The list [arc_parts] when the arc is joined. *)
Definition arc_parts_of (transitions : list Transition) : list string :=
  match transitions with
  | [] => []
  | first :: _ =>
      fold_left (fun parts t => arc_add parts (t_to_emotion t))
                (slice_to 3 transitions) (arc_add [] (t_from_emotion first))
  end.

(** The time and the hundredfold score of a peak are within the range of
    the finite floats. *)
Definition peak_ranged (p : Peak) : Prop :=
  float_ranged (p_time p) /\ float_ranged (p_score p * 100).

(** Where an emitted peak comes from: a segment of one of the two channels
    whose unrounded score passed the threshold. *)
Definition peak_source (hume_data : HumeData) (threshold : Q) (p : Peak) : Prop :=
  exists segment,
    (In segment (segments_of (speech_prosody hume_data))
     \/ In segment (segments_of (vocal_burst hume_data)))
    /\ threshold <= get (e_score (dominant_of segment)) 0
    /\ p_score p = round2 (get (e_score (dominant_of segment)) 0)
    /\ p_time p = begin_of segment.

(** The candidate that replaces [merged[-1]] when [c] overlaps it. *)
Definition absorb (l c : Candidate) : Candidate :=
  (c_start l, py_max (c_end c) (c_end l), (c_reason l ++ " + " ++ c_reason c)%string).

(** The merge pass with the last merged candidate held apart. *)
Fixpoint merge_from (cur : Candidate) (cs : list Candidate) : list Candidate :=
  match cs with
  | [] => [cur]
  | c :: cs' =>
      if Qle_bool (c_start c) (c_end cur) then merge_from (absorb cur c) cs'
      else cur :: merge_from c cs'
  end.

(** No candidate starts at or before the end of the one in front of it. *)
Fixpoint separated (l : list Candidate) : Prop :=
  match l with
  | [] => True
  | a :: tl =>
      match tl with
      | [] => True
      | b :: _ => Qle_bool (c_start b) (c_end a) = false
      end /\ separated tl
  end.

Definition well_formed (c : Candidate) : Prop := 0 <= c_start c /\ c_start c <= c_end c.

(** * The record as an untyped document

    The same functions over a parsed JSON document, where every access may
    raise.  A value is [None], a number, a string, a list, a tuple or a
    dictionary with string keys (an association list without repeated
    keys); booleans are left out.  What the code itself builds with a fixed
    layout stays typed:
    a peak or transition dictionary is a record whose fields are values
    where the code stores what it read, and numbers or strings where it
    stores what it computed. *)

Module Py.

#[warnings="-register-all"]
Inductive value : Type :=
| VNone
| VNum (q : Q)
| VStr (s : string)
| VList (l : list value)
| VTuple (l : list value)
| VDict (d : list (string * value)).

Inductive exn : Type :=
| TypeError
| AttributeError
| KeyError
| IndexError
| ValueError
| OverflowError
| JSONDecodeError
| RecursionError.

Inductive res (A : Type) : Type :=
| Ok (a : A)
| Raise (e : exn).

Arguments Ok {A} a.
Arguments Raise {A} e.

Definition bind {A B : Type} (m : res A) (k : A -> res B) : res B :=
  match m with
  | Ok a => k a
  | Raise e => Raise e
  end.

Notation "x <- m ;; k" := (bind m (fun x => k))
  (at level 61, m at next level, right associativity).

(** A loop that appends what each iteration yields. *)
Fixpoint for_each {A B : Type} (body : A -> res (list B)) (l : list A) : res (list B) :=
  match l with
  | [] => Ok []
  | x :: rest =>
      ys <- body x ;;
      zs <- for_each body rest ;;
      Ok (ys ++ zs)
  end.

Definition lookup (k : string) (d : list (string * value)) : option value :=
  option_map snd (find (fun kv => String.eqb (fst kv) k) d).

(** [d.get(k, default)] *)
Definition dict_get (d : value) (k : string) (default : value) : res value :=
  match d with
  | VDict kvs => Ok (get (lookup k kvs) default)
  | _ => Raise AttributeError
  end.

(** [d[k]] for a string [k] *)
Definition getitem (d : value) (k : string) : res value :=
  match d with
  | VDict kvs =>
      match lookup k kvs with
      | Some v => Ok v
      | None => Raise KeyError
      end
  | _ => Raise TypeError
  end.

Definition chars (s : string) : list value :=
  map (fun c => VStr (String c EmptyString)) (list_ascii_of_string s).

(** [l[i]] for an index [i >= 0]; a dictionary has no integer key. *)
Definition getitem_at (l : value) (i : nat) : res value :=
  let nth (xs : list value) :=
    match nth_error xs i with
    | Some x => Ok x
    | None => Raise IndexError
    end in
  match l with
  | VList xs | VTuple xs => nth xs
  | VStr s => nth (chars s)
  | VDict _ => Raise KeyError
  | _ => Raise TypeError
  end.

(** [if v:] *)
Definition truthy (v : value) : bool :=
  match v with
  | VNone => false
  | VNum q => negb (Qeq_bool q 0)
  | VStr s => negb (s =? "")%string
  | VList l | VTuple l => negb (Nat.eqb (List.length l) 0)
  | VDict d => negb (Nat.eqb (List.length d) 0)
  end.

(** [for x in v] *)
Definition iter (v : value) : res (list value) :=
  match v with
  | VList l | VTuple l => Ok l
  | VDict d => Ok (map (fun kv => VStr (fst kv)) d)
  | VStr s => Ok (chars s)
  | _ => Raise TypeError
  end.

(** [len(v)] *)
Definition len (v : value) : res nat :=
  match v with
  | VList l | VTuple l => Ok (List.length l)
  | VDict d => Ok (List.length d)
  | VStr s => Ok (String.length s)
  | _ => Raise TypeError
  end.

(** [v >= t] for a number [t] *)
Definition ge_num (v : value) (t : Q) : res bool :=
  match v with
  | VNum q => Ok (Qle_bool t q)
  | _ => Raise TypeError
  end.

(** [round(v, 2)] *)
Definition round_num (v : value) : res Q :=
  match v with
  | VNum q => Ok (round2 q)
  | _ => Raise TypeError
  end.

(** The conversion of a number to a float.  A number whose magnitude
    reaches [float_limit] is an [int], since no finite float is that large,
    and converting it raises [OverflowError]: an [int] converts as long as
    it rounds to a finite float, the largest being [2^1024 - 2^971].  Every
    other number converts (to itself: rounding is not modelled). *)
Definition float_limit : Q := inject_Z (2 ^ 1024 - 2 ^ 970).

Definition as_float (q : Q) : res Q :=
  if Qle_bool float_limit (Qabs q) then Raise OverflowError else Ok q.

(** [v - t] and [v + t] for a float [t]: an [int] [v] is converted. *)
Definition sub_num (v : value) (t : Q) : res Q :=
  match v with
  | VNum q => x <- as_float q ;; Ok (x - t)
  | _ => Raise TypeError
  end.

Definition add_num (v : value) (t : Q) : res Q :=
  match v with
  | VNum q => x <- as_float q ;; Ok (x + t)
  | _ => Raise TypeError
  end.

(** [v - n] and [v + n] for an [int] literal [n]: nothing is converted. *)
Definition sub_int (v : value) (n : Z) : res Q :=
  match v with
  | VNum q => Ok (q - inject_Z n)
  | _ => Raise TypeError
  end.

Definition add_int (v : value) (n : Z) : res Q :=
  match v with
  | VNum q => Ok (q + inject_Z n)
  | _ => Raise TypeError
  end.

(** [v[:30] + '...'] *)
Definition snippet (v : value) : res string :=
  match v with
  | VStr s => Ok (substring 0 30 s ++ "...")%string
  | _ => Raise TypeError
  end.

(** [f"{score*100:.0f}"] for the score a peak stores: the product of an
    [int] is an [int], which the format converts.  (The product of a float
    beyond the range is an infinity in Python, which is not modelled.) *)
Definition percent_num (score : Q) : res string :=
  x <- as_float (score * 100) ;; Ok (format_f 0 x).

(** [f"{v:.<prec>f}"]: an [int] is converted. *)
Definition format_num (prec : nat) (v : value) : res string :=
  match v with
  | VNum q => x <- as_float q ;; Ok (format_f prec x)
  | VStr _ => Raise ValueError
  | _ => Raise TypeError
  end.

(** [a == b] *)
Fixpoint eqb (a b : value) {struct a} : bool :=
  match a, b with
  | VNone, VNone => true
  | VNum p, VNum q => Qeq_bool p q
  | VStr s, VStr t => String.eqb s t
  | VList l, VList m | VTuple l, VTuple m =>
      (fix all2 (l m : list value) {struct l} : bool :=
         match l, m with
         | [], [] => true
         | x :: l', y :: m' => eqb x y && all2 l' m'
         | _, _ => false
         end) l m
  | VDict d, VDict e =>
      Nat.eqb (List.length d) (List.length e)
      && (fix all (d : list (string * value)) {struct d} : bool :=
            match d with
            | [] => true
            | (k, v) :: d' =>
                match lookup k e with
                | Some w => eqb v w
                | None => false
                end && all d'
            end) d
  | _, _ => false
  end.

(** [v in l] *)
Definition member (v : value) (l : list value) : bool := existsb (eqb v) l.

(** The dictionaries the code builds. *)
Record peak := mkpeak {
  time : value;
  emotion : value;
  score : Q;
  text_snippet : string
}.

Record transition := mktransition {
  tr_time : value;
  from_emotion : value;
  to_emotion : value;
  intensity : Q
}.

Record summary := mksummary {
  s_overall_mood : option value;
  s_mood_confidence : option Q;
  s_emotional_peaks : option (list peak);
  s_emotional_transitions : option (list transition);
  s_key_moments : option (list KeyMoment);
  s_emotional_arc : option string
}.

Section Functions.
(** [str(v)] of a value that is not a string; left open. *)
Variable repr : value -> string.

(** [f"{v}"] *)
Definition to_str (v : value) : string :=
  match v with
  | VStr s => s
  | _ => repr v
  end.

(** [sep.join(parts)] *)
Fixpoint join_values (sep : string) (parts : list value) : res string :=
  match parts with
  | [] => Ok ""
  | VStr s :: rest =>
      match rest with
      | [] => Ok s
      | _ => t <- join_values sep rest ;; Ok (s ++ sep ++ t)%string
      end
  | _ :: _ => Raise TypeError
  end.

(** [hume_data.get(channel, {}).get('segments', [])] *)
Definition channel_segments (hume_data : value) (channel : string) : res value :=
  c <- dict_get hume_data channel (VDict []) ;;
  dict_get c "segments" (VList []).

(** [segment.get('time', {}).get('begin', 0)] *)
Definition begin_time (segment : value) : res value :=
  t <- dict_get segment "time" (VDict []) ;;
  dict_get t "begin" (VNum 0).

Definition prosody_peak (threshold : Q) (segment : value) : res (list peak) :=
  dominant <- dict_get segment "dominant_emotion" (VDict []) ;;
  s <- dict_get dominant "score" (VNum 0) ;;
  above <- ge_num s threshold ;;
  if above : bool then
    t <- begin_time segment ;;
    n <- dict_get dominant "name" (VStr "Unknown") ;;
    s' <- dict_get dominant "score" (VNum 0) ;;
    r <- round_num s' ;;
    text <- dict_get segment "text" (VStr "") ;;
    sn <- snippet text ;;
    Ok [ {| time := t; emotion := n; score := r; text_snippet := sn |} ]
  else Ok [].

Definition burst_peak (threshold : Q) (burst : value) : res (list peak) :=
  dominant <- dict_get burst "dominant_emotion" (VDict []) ;;
  s <- dict_get dominant "score" (VNum 0) ;;
  above <- ge_num s threshold ;;
  if above : bool then
    t <- begin_time burst ;;
    n <- dict_get dominant "name" (VStr "Unknown") ;;
    s' <- dict_get dominant "score" (VNum 0) ;;
    r <- round_num s' ;;
    Ok [ {| time := t;
            emotion := VStr ("VocalBurst:" ++ to_str n);
            score := r;
            text_snippet := "[Non-verbal expression]" |} ]
  else Ok [].

Definition extract_emotional_peaks
    (hume_data : value) (top_n : Z) (threshold : Q) : res (list peak) :=
  segments <- channel_segments hume_data "speech_prosody" ;;
  segments <- iter segments ;;
  peaks1 <- for_each (prosody_peak threshold) segments ;;
  bursts <- channel_segments hume_data "vocal_burst" ;;
  bursts <- iter bursts ;;
  peaks2 <- for_each (burst_peak threshold) bursts ;;
  Ok (slice_to top_n (sort_desc score (peaks1 ++ peaks2))).

Definition transition_at (segments : value) (change_threshold : Q) (i : nat)
  : res (list transition) :=
  prev <- getitem_at segments (i - 1) ;;
  prev_emotion <- dict_get prev "dominant_emotion" (VDict []) ;;
  curr <- getitem_at segments i ;;
  curr_emotion <- dict_get curr "dominant_emotion" (VDict []) ;;
  prev_name <- dict_get prev_emotion "name" VNone ;;
  curr_name <- dict_get curr_emotion "name" VNone ;;
  if negb (eqb prev_name curr_name) then
    s <- dict_get curr_emotion "score" (VNum 0) ;;
    above <- ge_num s change_threshold ;;
    if above : bool then
      t <- begin_time curr ;;
      f <- dict_get prev_emotion "name" (VStr "Unknown") ;;
      n <- dict_get curr_emotion "name" (VStr "Unknown") ;;
      s' <- dict_get curr_emotion "score" (VNum 0) ;;
      r <- round_num s' ;;
      Ok [ {| tr_time := t; from_emotion := f; to_emotion := n; intensity := r |} ]
    else Ok []
  else Ok [].

Definition detect_emotional_transitions
    (hume_data : value) (change_threshold : Q) : res (list transition) :=
  segments <- channel_segments hume_data "speech_prosody" ;;
  n <- len segments ;;
  for_each (transition_at segments change_threshold) (range1 n).

Definition key_moment (p : peak) : res (list KeyMoment) :=
  t <- format_num 1 (time p) ;;
  pct <- percent_num (score p) ;;
  Ok [ {| km_time := (t ++ "s")%string;
          km_event := (to_str (emotion p) ++ " (" ++ pct ++ "%)")%string |} ].

(** [if e not in arc_parts: arc_parts.append(e)] *)
Definition arc_add (arc_parts : list value) (e : value) : list value :=
  if negb (member e arc_parts) then arc_parts ++ [e] else arc_parts.

Definition build_arc (transitions : list transition) : res (option string) :=
  match transitions with
  | [] => Ok None
  | first :: _ =>
      let arc_parts := arc_add [] (from_emotion first) in
      let arc_parts :=
        fold_left (fun parts t => arc_add parts (to_emotion t))
                  (slice_to 3 transitions) arc_parts in
      arc <- join_values arrow arc_parts ;;
      Ok (Some arc)
  end.

(** The overall-mood block: [overall_mood] and [mood_confidence]. *)
Definition mood (hume_data : value) : res (option (value * Q)) :=
  language <- dict_get hume_data "language" (VDict []) ;;
  segments <- dict_get language "segments" VNone ;;
  if truthy segments then
    segments <- getitem language "segments" ;;
    first <- getitem_at segments 0 ;;
    dominant_emotion <- dict_get first "dominant_emotion" (VDict []) ;;
    n <- dict_get dominant_emotion "name" (VStr "Unknown") ;;
    s <- dict_get dominant_emotion "score" (VNum 0) ;;
    r <- round_num s ;;
    Ok (Some (n, r))
  else Ok None.

Definition create_emotional_summary
    (hume_data : value) (strategy : string) (kwargs : Options) : res summary :=
  m <- mood hume_data ;;
  let mood_name := option_map fst m in
  let mood_conf := option_map snd m in
  if (strategy =? "peaks")%string then
    let threshold := get (opt_threshold kwargs) 0.3 in
    let top_n := get (opt_top_n kwargs) 5%Z in
    peaks <- extract_emotional_peaks hume_data top_n threshold ;;
    Ok (mksummary mood_name mood_conf (Some peaks) None None None)
  else if (strategy =? "transitions")%string then
    let change_threshold := get (opt_change_threshold kwargs) 0.2 in
    transitions <- detect_emotional_transitions hume_data change_threshold ;;
    Ok (mksummary mood_name mood_conf None (Some (slice_to 5 transitions)) None None)
  else if (strategy =? "full_summary")%string then
    peaks <- extract_emotional_peaks hume_data 3 0.35 ;;
    transitions <- detect_emotional_transitions hume_data 0.25 ;;
    moments <- for_each key_moment (slice_to 2 peaks) ;;
    arc <- build_arc transitions ;;
    Ok (mksummary mood_name mood_conf None None (Some moments) arc)
  else Ok (mksummary mood_name mood_conf None None None None).

Definition reason_of (emotion : value) : string :=
  if member emotion [VStr "Amusement"; VStr "Joy"; VStr "Excitement"]
  then "High humor/joy moment"
  else if member emotion [VStr "Sadness"; VStr "Empathic Pain"]
  then "Emotional/touching moment"
  else if member emotion [VStr "Surprise (positive)"; VStr "Surprise (negative)"]
  then "Unexpected twist"
  else if member emotion [VStr "Contemplation"; VStr "Realization"]
  then "Insightful observation"
  else ("Strong " ++ to_str emotion ++ " moment")%string.

(** [time_window] is a float, as the signature says. *)
Definition peak_candidate (time_window : Q) (p : peak) : res (list Candidate) :=
  before <- sub_num (time p) time_window ;;
  let start := py_max 0 before in
  end_ <- add_num (time p) time_window ;;
  Ok [ (start, end_, reason_of (emotion p)) ].

Definition burst_candidate (burst : value) : res (list Candidate) :=
  t <- begin_time burst ;;
  before <- sub_int t 1 ;;
  after <- add_int t 1 ;;
  Ok [ (py_max 0 before, after, "Non-verbal expression") ].

Definition identify_punchline_candidates
    (hume_data : value) (time_window : Q) : res (list Candidate) :=
  peaks <- extract_emotional_peaks hume_data 10 0.25 ;;
  candidates1 <- for_each (peak_candidate time_window) peaks ;;
  bursts <- channel_segments hume_data "vocal_burst" ;;
  bursts <- iter bursts ;;
  candidates2 <- for_each burst_candidate bursts ;;
  Ok (slice_to 7 (merge_pass (sort_asc c_start (candidates1 ++ candidates2)))).
(** ** format_for_prompt, process_hume_data, get_emotional_context *)

Definition format_peak (p : peak) : res (list string) :=
  t <- format_num 0 (time p) ;;
  pct <- percent_num (score p) ;;
  Ok [ ("[" ++ t ++ "s: " ++ to_str (emotion p) ++ " " ++ pct ++ "%]")%string ].

Definition format_for_prompt (emotional_summary : summary) : res string :=
  let lines1 :=
    match s_overall_mood emotional_summary with
    | Some mood => [("Overall mood: " ++ to_str mood)%string]
    | None => []
    end in
  lines2 <-
    match s_emotional_peaks emotional_summary with
    | Some ((_ :: _) as peaks) =>
        peak_strs <- for_each format_peak (slice_to 3 peaks) ;;
        Ok [("Peak moments: " ++ join ", " peak_strs)%string]
    | _ => Ok []
    end ;;
  let lines3 :=
    match s_emotional_arc emotional_summary with
    | Some arc => [("Emotional journey: " ++ arc)%string]
    | None => []
    end in
  let lines4 :=
    match s_key_moments emotional_summary with
    | Some moments =>
        [("Key moments: " ++ join ", " (map format_moment (slice_to 2 moments)))%string]
    | None => []
    end in
  Ok (join newline (lines1 ++ lines2 ++ lines3 ++ lines4)).

(** The dictionary [process_hume_data] returns: a summary, or
    [{'error': 'Invalid JSON data'}], which holds none of the keys of a
    summary. *)
Record response := mkresponse {
  r_error : option string;
  r_summary : summary
}.

(** [json.loads]: the parsed value, or the exception it raises,
    [JSONDecodeError] on text that is not JSON, [RecursionError] on text
    nested too deeply. *)
Variable loads : string -> res value.

Definition process_hume_data (hume_json_str : string) (strategy : string)
  : res response :=
  match loads hume_json_str with
  | Raise JSONDecodeError =>
      Ok (mkresponse (Some "Invalid JSON data")
                     (mksummary None None None None None None))
  | Raise e => Raise e
  | Ok hume_data =>
      s <- create_emotional_summary hume_data strategy (mkOptions None None None) ;;
      Ok (mkresponse None s)
  end.

Definition get_emotional_context (hume_json_str : string) : res string :=
  summary <- process_hume_data hume_json_str "full_summary" ;;
  format_for_prompt (r_summary summary).
End Functions.

(** What [.get('name')] returns: the string, or [None]. *)
Definition name_value (o : option string) : value :=
  match o with
  | Some s => VStr s
  | None => VNone
  end.

(** ** The input shape

    [field R d k o]: the key [k] is absent from [d] when [o] is [None], and
    holds a value that [R] relates to [a] when [o] is [Some a].  Other keys
    of [d] are free. *)
Definition field {A : Type} (R : value -> A -> Prop)
    (d : list (string * value)) (k : string) (o : option A) : Prop :=
  match lookup k d, o with
  | Some v, Some a => R v a
  | None, None => True
  | _, _ => False
  end.

Definition is_num (v : value) (q : Q) : Prop := v = VNum q.
Definition is_str (v : value) (s : string) : Prop := v = VStr s.

Definition is_emotion (v : value) (e : EmotionScore) : Prop :=
  exists d, v = VDict d
    /\ field is_str d "name" (e_name e)
    /\ field is_num d "score" (e_score e).

Definition is_time (v : value) (t : TimeSpan) : Prop :=
  exists d, v = VDict d /\ field is_num d "begin" (ts_begin t).

Definition is_segment (v : value) (s : Segment) : Prop :=
  exists d, v = VDict d
    /\ field is_time d "time" (seg_time s)
    /\ field is_str d "text" (seg_text s)
    /\ field is_emotion d "dominant_emotion" (seg_dominant_emotion s).

Definition is_segments (v : value) (l : list Segment) : Prop :=
  exists vs, v = VList vs /\ Forall2 is_segment vs l.

Definition is_channel (v : value) (c : Channel) : Prop :=
  exists d, v = VDict d /\ field is_segments d "segments" (ch_segments c).

Definition is_hume_data (v : value) (r : HumeData) : Prop :=
  exists d, v = VDict d
    /\ field is_channel d "speech_prosody" (speech_prosody r)
    /\ field is_channel d "vocal_burst" (vocal_burst r)
    /\ field is_channel d "language" (language r).

(** ** The typed results as the dictionaries the code builds *)

Definition of_peak (p : Peak) : peak :=
  {| time := VNum (p_time p);
     emotion := VStr (p_emotion p);
     score := p_score p;
     text_snippet := p_text_snippet p |}.

Definition of_transition (t : Transition) : transition :=
  {| tr_time := VNum (t_time t);
     from_emotion := VStr (t_from_emotion t);
     to_emotion := VStr (t_to_emotion t);
     intensity := t_intensity t |}.

Definition of_summary (s : Summary) : summary :=
  {| s_overall_mood := option_map VStr (overall_mood s);
     s_mood_confidence := mood_confidence s;
     s_emotional_peaks := option_map (map of_peak) (emotional_peaks s);
     s_emotional_transitions := option_map (map of_transition) (emotional_transitions s);
     s_key_moments := key_moments s;
     s_emotional_arc := emotional_arc s |}.

End Py.

(** ** A sample document *)

(** A document of the input shape and the record it denotes. *)
Definition document : Py.value :=
  Py.VDict
    [ ("speech_prosody",
       Py.VDict [ ("segments",
          Py.VList [ Py.VDict [ ("time", Py.VDict [("begin", Py.VNum 10); ("end", Py.VNum 11)]);
                                ("text", Py.VStr "what a day");
                                ("dominant_emotion",
                                 Py.VDict [("name", Py.VStr "Joy"); ("score", Py.VNum 0.5)]) ];
                     Py.VDict [ ("dominant_emotion", Py.VDict [("score", Py.VNum 0.6)]) ];
                     Py.VDict [] ]) ]);
      ("vocal_burst", Py.VDict []);
      ("session", Py.VStr "a1") ].

Definition document_record : HumeData :=
  mkHumeData
    (Some (mkChannel (Some
       [ mkSegment (Some (mkTimeSpan (Some 10))) (Some "what a day")
                   (Some (mkEmotionScore (Some "Joy") (Some 0.5)));
         mkSegment None None (Some (mkEmotionScore None (Some 0.6)));
         mkSegment None None None ])))
    (Some (mkChannel None))
    None.

(** A document whose begin time is an integer beyond the range of the
    floats. *)
Definition huge : Q := inject_Z (10 ^ 400).

Definition huge_document : Py.value :=
  Py.VDict
    [ ("speech_prosody",
       Py.VDict [ ("segments",
          Py.VList [ Py.VDict [ ("time", Py.VDict [("begin", Py.VNum huge)]);
                                ("dominant_emotion",
                                 Py.VDict [("name", Py.VStr "Joy");
                                           ("score", Py.VNum 0.5)]) ] ]) ]) ].

Definition huge_record : HumeData :=
  mkHumeData
    (Some (mkChannel (Some
       [ mkSegment (Some (mkTimeSpan (Some huge))) None
                   (Some (mkEmotionScore (Some "Joy") (Some 0.5))) ])))
    None None.

(** * Properties *)

(** ** Rounding *)

Lemma round_half_even_bounds (q : Q) :
  (Qfloor q <= round_half_even q <= Qfloor q + 1)%Z.
Proof.
  destruct q as [n d]. unfold round_half_even, Qfloor. cbn [Qnum Qden].
  destruct (2 * (n mod Z.pos d) ?= Z.pos d)%Z; try lia.
  destruct (Z.even (n / Z.pos d)); lia.
Qed.

Lemma round_half_even_le (p q : Q) :
  p <= q -> (round_half_even p <= round_half_even q)%Z.
Proof.
  intros Hpq.
  pose proof (Qfloor_resp_le _ _ Hpq) as Hfl.
  pose proof (round_half_even_bounds p) as Hp.
  pose proof (round_half_even_bounds q) as Hq.
  destruct (Z.eq_dec (Qfloor p) (Qfloor q)) as [Heq | Hne]; [| lia].
  clear Hfl Hp Hq. revert Heq Hpq.
  destruct p as [n1 d1], q as [n2 d2].
  unfold round_half_even, Qfloor, Qle. cbn [Qnum Qden].
  intros Heq Hle. rewrite <- Heq.
  pose proof (Z.div_mod n1 (Z.pos d1) ltac:(lia)) as E1.
  pose proof (Z.div_mod n2 (Z.pos d2) ltac:(lia)) as E2.
  pose proof (Z.mod_pos_bound n1 (Z.pos d1) ltac:(lia)) as B1.
  pose proof (Z.mod_pos_bound n2 (Z.pos d2) ltac:(lia)) as B2.
  rewrite <- Heq in E2.
  set (f := (n1 / Z.pos d1)%Z) in *.
  set (r1 := (n1 mod Z.pos d1)%Z) in *.
  set (r2 := (n2 mod Z.pos d2)%Z) in *.
  assert (Hr : (r1 * Z.pos d2 <= r2 * Z.pos d1)%Z) by nia.
  destruct (Z.compare_spec (2 * r1) (Z.pos d1)) as [C1 | C1 | C1];
    destruct (Z.compare_spec (2 * r2) (Z.pos d2)) as [C2 | C2 | C2];
    destruct (Z.even f); try lia; exfalso; nia.
Qed.

Lemma round2_le (p q : Q) : p <= q -> round2 p <= round2 q.
Proof.
  intros Hpq. unfold round2, Qle. cbn [Qnum Qden].
  apply Z.mul_le_mono_nonneg_r; [lia |].
  apply round_half_even_le.
  apply Qmult_le_compat_r; [exact Hpq | discriminate].
Qed.

(** ** The stable sort *)

Section StableSortFacts.
Context {A : Type}.
Variable before : A -> A -> bool.

Lemma insert_perm (x : A) (l : list A) : Permutation (insert before x l) (x :: l).
Proof.
  induction l as [| y l IH]; cbn; [reflexivity |].
  destruct (before x y); [reflexivity |].
  rewrite IH. apply perm_swap.
Qed.

Lemma stable_sort_perm (l : list A) : Permutation (stable_sort before l) l.
Proof.
  induction l as [| x l IH]; cbn; [constructor |].
  rewrite insert_perm. now constructor.
Qed.

(** Elements that [p] selects and that may stand in either order are
    never reordered. *)
Lemma insert_filter (p : A -> bool) (x : A) (l : list A) :
  (forall a b, p a = true -> p b = true -> before a b = true) ->
  filter p (insert before x l) = filter p (x :: l).
Proof.
  intros Hp. induction l as [| y l IH]; [reflexivity |].
  cbn [insert]. destruct (before x y) eqn:Hxy; [reflexivity |].
  cbn [filter] in *. rewrite IH.
  destruct (p x) eqn:Hx, (p y) eqn:Hy; try reflexivity.
  rewrite (Hp x y Hx Hy) in Hxy. discriminate.
Qed.

Lemma stable_sort_filter (p : A -> bool) (l : list A) :
  (forall a b, p a = true -> p b = true -> before a b = true) ->
  filter p (stable_sort before l) = filter p l.
Proof.
  intros Hp. induction l as [| x l IH]; [reflexivity |].
  cbn [stable_sort fold_right]. fold (stable_sort before l).
  rewrite (insert_filter p x _ Hp). cbn [filter]. now rewrite IH.
Qed.

Hypothesis before_total : forall a b, before a b = false -> before b a = true.
Hypothesis before_trans :
  forall a b c, before a b = true -> before b c = true -> before a c = true.

Lemma insert_sorted (x : A) (l : list A) :
  StronglySorted (fun a b => before a b = true) l ->
  StronglySorted (fun a b => before a b = true) (insert before x l).
Proof.
  induction 1 as [| y l Hs IH Hy]; cbn.
  - repeat constructor.
  - destruct (before x y) eqn:Hxy.
    + constructor; [now constructor |].
      constructor; [exact Hxy |].
      eapply Forall_impl; [| exact Hy]. intros z Hz. now apply (before_trans x y z).
    + constructor; [exact IH |].
      eapply Permutation_Forall; [symmetry; apply insert_perm |].
      constructor; [now apply before_total | exact Hy].
Qed.

Lemma stable_sort_sorted (l : list A) :
  StronglySorted (fun a b => before a b = true) (stable_sort before l).
Proof.
  induction l as [| x l IH]; cbn; [constructor |].
  now apply insert_sorted.
Qed.
End StableSortFacts.

Lemma Qle_bool_total (a b : Q) : Qle_bool a b = false -> Qle_bool b a = true.
Proof.
  intros H. apply Qle_bool_iff. destruct (Qlt_le_dec b a) as [Hlt | Hle].
  - now apply Qlt_le_weak.
  - apply Qle_bool_iff in Hle. congruence.
Qed.

Lemma Qle_bool_trans (a b c : Q) :
  Qle_bool a b = true -> Qle_bool b c = true -> Qle_bool a c = true.
Proof.
  rewrite !Qle_bool_iff. apply Qle_trans.
Qed.

Lemma StronglySorted_weaken {A : Type} (R S : A -> A -> Prop) (l : list A) :
  (forall a b, R a b -> S a b) -> StronglySorted R l -> StronglySorted S l.
Proof.
  intros HRS. induction 1 as [| x l Hs IH Hx]; constructor; [exact IH |].
  eapply Forall_impl; [| exact Hx]. intros y. apply HRS.
Qed.

Lemma sort_desc_sorted {A : Type} (key : A -> Q) (l : list A) :
  StronglySorted (fun a b => key b <= key a) (sort_desc key l).
Proof.
  eapply StronglySorted_weaken; [| apply stable_sort_sorted].
  - intros a b H. apply Qle_bool_iff. exact H.
  - intros a b. apply Qle_bool_total.
  - intros a b c Hab Hbc. eapply Qle_bool_trans; eassumption.
Qed.

Lemma sort_asc_sorted {A : Type} (key : A -> Q) (l : list A) :
  StronglySorted (fun a b => key a <= key b) (sort_asc key l).
Proof.
  eapply StronglySorted_weaken; [| apply stable_sort_sorted].
  - intros a b H. apply Qle_bool_iff. exact H.
  - intros a b. apply Qle_bool_total.
  - intros a b c Hab Hbc. eapply Qle_bool_trans; eassumption.
Qed.

(** Elements of equal key keep their order. *)
Lemma sort_desc_stable {A : Type} (key : A -> Q) (k : Q) (l : list A) :
  filter (fun x => Qeq_bool (key x) k) (sort_desc key l)
  = filter (fun x => Qeq_bool (key x) k) l.
Proof.
  apply stable_sort_filter. intros a b Ha Hb.
  apply Qeq_bool_iff in Ha, Hb. apply Qle_bool_iff.
  rewrite Ha, Hb. apply Qle_refl.
Qed.

Lemma sort_asc_stable {A : Type} (key : A -> Q) (k : Q) (l : list A) :
  filter (fun x => Qeq_bool (key x) k) (sort_asc key l)
  = filter (fun x => Qeq_bool (key x) k) l.
Proof.
  apply stable_sort_filter. intros a b Ha Hb.
  apply Qeq_bool_iff in Ha, Hb. apply Qle_bool_iff.
  rewrite Ha, Hb. apply Qle_refl.
Qed.

(** ** Slices *)

Lemma slice_to_prefix {A : Type} (n : Z) (l : list A) :
  exists rest, l = slice_to n l ++ rest.
Proof.
  unfold slice_to. destruct (0 <=? n)%Z; eexists; symmetry; apply firstn_skipn.
Qed.

Lemma slice_to_incl {A : Type} (n : Z) (l : list A) (x : A) :
  In x (slice_to n l) -> In x l.
Proof.
  destruct (slice_to_prefix n l) as [rest E]. intros H.
  rewrite E. apply in_or_app. now left.
Qed.

Lemma slice_to_length {A : Type} (n : Z) (l : list A) :
  (0 <= n)%Z -> (Z.of_nat (List.length (slice_to n l)) <= n)%Z.
Proof.
  intros Hn. unfold slice_to. destruct (Z.leb_spec 0 n); [| lia].
  rewrite length_firstn. lia.
Qed.

Lemma slice_to_nil {A : Type} (n : Z) : slice_to n (@nil A) = [].
Proof.
  unfold slice_to. destruct (0 <=? n)%Z; apply firstn_nil.
Qed.

(** ** extract_emotional_peaks *)

Lemma emitted_peaks_source (hume_data : HumeData) (threshold : Q) (p : Peak) :
  In p (emitted_peaks hume_data threshold) -> peak_source hume_data threshold p.
Proof.
  unfold emitted_peaks. rewrite in_app_iff, !in_flat_map.
  intros [[s [Hs Hp]] | [s [Hs Hp]]]; exists s;
    unfold prosody_peak, burst_peak in Hp;
    destruct (Qle_bool threshold _) eqn:Hge in Hp; cbn in Hp;
    try contradiction; destruct Hp as [<- | []]; cbn;
    apply Qle_bool_iff in Hge; auto.
Qed.

Lemma extract_peaks_incl (hume_data : HumeData) (top_n : Z) (threshold : Q) (p : Peak) :
  In p (extract_emotional_peaks hume_data top_n threshold) ->
  In p (emitted_peaks hume_data threshold).
Proof.
  unfold extract_emotional_peaks. intros H. apply slice_to_incl in H.
  eapply Permutation_in; [apply stable_sort_perm | exact H].
Qed.

(** C1, as amended: every returned peak stems from a segment whose
    unrounded dominant-emotion score is at least the threshold; the score
    the peak stores is that score rounded to two decimals, and it is at
    least the threshold rounded to two decimals.  This holds for every
    [top_n]. *)
Theorem extract_peaks_raw_score_above_threshold
    (hume_data : HumeData) (top_n : Z) (threshold : Q) :
  Forall (fun p => peak_source hume_data threshold p /\ round2 threshold <= p_score p)
         (extract_emotional_peaks hume_data top_n threshold).
Proof.
  apply Forall_forall. intros p Hp.
  apply extract_peaks_incl, emitted_peaks_source in Hp.
  split; [exact Hp |].
  destruct Hp as [s [_ [Hge [-> _]]]]. now apply round2_le.
Qed.

(** C1 fails as stated: a segment scoring 0.304 passes the threshold 0.304,
    and its peak stores the rounded score 0.3, which is below the threshold. *)
Lemma extract_peaks_rounded_score_below_threshold :
  (0 <= 5)%Z
  /\ extract_emotional_peaks low_margin_record 5 0.304
     = [mkPeak 0 "Joy" 0.30 "..."]
  /\ ~ Forall (fun p => 0.304 <= p_score p)
              (extract_emotional_peaks low_margin_record 5 0.304).
Proof.
  split; [lia |]. split; [reflexivity |].
  intros H. inversion H as [| p l Hp _]; subst.
  cbn in Hp. unfold Qle in Hp. cbn in Hp. lia.
Qed.

(** C3: for [top_n >= 0] the result has at most [top_n] peaks, it is sorted
    by descending score, it is a prefix of a rearrangement of the emitted
    peaks, and the peaks of any one score appear in the order in which they
    were emitted (prosody peaks first, each channel in source order). *)
Theorem extract_peaks_sorted_stable
    (hume_data : HumeData) (top_n : Z) (threshold : Q) :
  (0 <= top_n)%Z ->
  let result := extract_emotional_peaks hume_data top_n threshold in
  let emitted := emitted_peaks hume_data threshold in
  (Z.of_nat (List.length result) <= top_n)%Z
  /\ StronglySorted (fun a b => p_score b <= p_score a) result
  /\ (exists dropped, Permutation (result ++ dropped) emitted)
  /\ (forall s, exists later,
        filter (fun p => Qeq_bool (p_score p) s) emitted
        = filter (fun p => Qeq_bool (p_score p) s) result ++ later).
Proof.
  intros Hn result emitted. subst result emitted.
  unfold extract_emotional_peaks.
  set (sorted := sort_desc p_score (emitted_peaks hume_data threshold)).
  destruct (slice_to_prefix top_n sorted) as [rest E].
  repeat split.
  - now apply slice_to_length.
  - pose proof (sort_desc_sorted p_score (emitted_peaks hume_data threshold)) as Hs.
    fold sorted in Hs. rewrite E in Hs.
    clear E. induction (slice_to top_n sorted) as [| x l IH]; [constructor |].
    cbn in Hs. inversion Hs as [| ? ? Hl Hx]; subst.
    constructor; [now apply IH |].
    rewrite Forall_app in Hx. tauto.
  - exists rest. rewrite <- E. apply stable_sort_perm.
  - intros s. exists (filter (fun p => Qeq_bool (p_score p) s) rest).
    rewrite <- filter_app, <- E. symmetry. apply sort_desc_stable.
Qed.

Lemma extract_peaks_sorted_stable_witness :
  (0 <= 2)%Z
  /\ (Z.of_nat (List.length (extract_emotional_peaks example_record 2 0.3)) <= 2)%Z.
Proof.
  split; [lia |].
  apply (extract_peaks_sorted_stable example_record 2 0.3). lia.
Defined.

(** ** detect_emotional_transitions *)

Lemma name_eqb_eq (a b : option string) : name_eqb a b = true <-> a = b.
Proof.
  destruct a as [s |], b as [t |]; cbn; try (split; congruence).
  rewrite String.eqb_eq. split; congruence.
Qed.

Lemma transition_at_equal_names
    (segments : list Segment) (change_threshold : Q) (i : nat) (prev curr : Segment) :
  nth_error segments (i - 1) = Some prev ->
  nth_error segments i = Some curr ->
  e_name (dominant_of prev) = e_name (dominant_of curr) ->
  transition_at segments change_threshold i = [].
Proof.
  intros Hprev Hcurr Heq. unfold transition_at. rewrite Hprev, Hcurr.
  apply name_eqb_eq in Heq. now rewrite Heq.
Qed.

Lemma transition_at_source
    (segments : list Segment) (change_threshold : Q) (i : nat) (t : Transition) :
  In t (transition_at segments change_threshold i) ->
  exists prev curr,
    nth_error segments (i - 1) = Some prev
    /\ nth_error segments i = Some curr
    /\ e_name (dominant_of prev) <> e_name (dominant_of curr)
    /\ change_threshold <= get (e_score (dominant_of curr)) 0
    /\ t = {| t_time := begin_of curr;
              t_from_emotion := get (e_name (dominant_of prev)) "Unknown";
              t_to_emotion := get (e_name (dominant_of curr)) "Unknown";
              t_intensity := round2 (get (e_score (dominant_of curr)) 0) |}.
Proof.
  unfold transition_at.
  destruct (nth_error segments (i - 1)) as [prev |]; [| contradiction].
  destruct (nth_error segments i) as [curr |]; [| contradiction].
  destruct (name_eqb _ _) eqn:Hn; cbn [negb]; [contradiction |].
  destruct (Qle_bool _ _) eqn:Hs; [| contradiction].
  intros [<- | []]. exists prev, curr. repeat split.
  - intros Heq. apply name_eqb_eq in Heq. congruence.
  - now apply Qle_bool_iff.
Qed.

(** C4: with fewer than two prosody segments there is no transition; the
    loop emits nothing at an index whose two segments carry equal
    dominant-emotion names; hence every transition of the result was emitted
    at an index [1 <= i < len(segments)] whose two names differ. *)
Theorem detect_transitions_names_differ (hume_data : HumeData) (change_threshold : Q) :
  let segments := segments_of (speech_prosody hume_data) in
  ((List.length segments < 2)%nat ->
   detect_emotional_transitions hume_data change_threshold = [])
  /\ (forall i prev curr,
        nth_error segments (i - 1) = Some prev ->
        nth_error segments i = Some curr ->
        e_name (dominant_of prev) = e_name (dominant_of curr) ->
        transition_at segments change_threshold i = [])
  /\ (forall t, In t (detect_emotional_transitions hume_data change_threshold) ->
        exists i prev curr,
          (1 <= i < List.length segments)%nat
          /\ nth_error segments (i - 1) = Some prev
          /\ nth_error segments i = Some curr
          /\ e_name (dominant_of prev) <> e_name (dominant_of curr)
          /\ In t (transition_at segments change_threshold i)).
Proof.
  intros segments. unfold detect_emotional_transitions. fold segments.
  split; [| split].
  - intros Hlen. unfold range1.
    replace (List.length segments - 1)%nat with 0%nat by lia. reflexivity.
  - intros i prev curr. apply transition_at_equal_names.
  - intros t Ht. apply in_flat_map in Ht. destruct Ht as [i [Hi Ht]].
    unfold range1 in Hi. apply in_seq in Hi.
    destruct (transition_at_source _ _ _ _ Ht) as [prev [curr [Hp [Hc [Hne _]]]]].
    exists i, prev, curr. repeat split; try assumption; lia.
Qed.

Lemma detect_transitions_names_differ_witness :
  detect_emotional_transitions single_segment_record 0.2 = []
  /\ transition_at (segments_of (speech_prosody example_record)) 0.2 1 = [].
Proof.
  split.
  - apply (proj1 (detect_transitions_names_differ single_segment_record 0.2)).
    cbn. lia.
  - apply (proj1 (proj2 (detect_transitions_names_differ example_record 0.2))
             1%nat (seg 0 "Joy" 0.5) (seg 1 "Joy" 0.5)); reflexivity.
Defined.

(** ** The merge pass *)

Lemma last_error_snoc {A : Type} (l : list A) (x : A) : last_error (l ++ [x]) = Some x.
Proof.
  induction l as [| y l IH]; [reflexivity |].
  cbn. rewrite IH. destruct (l ++ [x]) eqn:E; [| reflexivity].
  now destruct l.
Qed.

Lemma merge_step_snoc (acc : list Candidate) (cur c : Candidate) :
  merge_step (acc ++ [cur]) c
  = if Qle_bool (c_start c) (c_end cur) then acc ++ [absorb cur c]
    else acc ++ [cur; c].
Proof.
  unfold merge_step. destruct c as [[start end_] reason].
  rewrite last_error_snoc, removelast_last. cbn [c_start c_end c_reason fst snd].
  destruct (Qle_bool start (c_end cur)); [reflexivity |].
  now rewrite <- app_assoc.
Qed.

Lemma fold_merge_step_snoc (cs acc : list Candidate) (cur : Candidate) :
  fold_left merge_step cs (acc ++ [cur]) = acc ++ merge_from cur cs.
Proof.
  revert acc cur. induction cs as [| c cs IH]; intros acc cur; [reflexivity |].
  cbn [fold_left merge_from]. rewrite merge_step_snoc.
  destruct (Qle_bool (c_start c) (c_end cur)).
  - apply IH.
  - change (acc ++ [cur; c]) with (acc ++ [cur] ++ [c]).
    rewrite app_assoc, IH, <- app_assoc. reflexivity.
Qed.

Lemma merge_pass_cons (c : Candidate) (cs : list Candidate) :
  merge_pass (c :: cs) = merge_from c cs.
Proof.
  destruct c as [[s e] r]. apply (fold_merge_step_snoc cs [] (s, e, r)).
Qed.

Lemma merge_from_head (cur : Candidate) (cs : list Candidate) :
  exists hd tl, merge_from cur cs = hd :: tl /\ c_start hd = c_start cur.
Proof.
  revert cur. induction cs as [| c cs IH]; intros cur; cbn.
  - now exists cur, [].
  - destruct (Qle_bool (c_start c) (c_end cur)).
    + destruct (IH (absorb cur c)) as [hd [tl [E Hs]]]. now exists hd, tl.
    + now exists cur, (merge_from c cs).
Qed.

Lemma merge_from_separated (cur : Candidate) (cs : list Candidate) :
  separated (merge_from cur cs).
Proof.
  revert cur. induction cs as [| c cs IH]; intros cur; cbn; [tauto |].
  destruct (Qle_bool (c_start c) (c_end cur)) eqn:Hov; [apply IH |].
  cbn. split; [| apply IH].
  destruct (merge_from_head c cs) as [hd [tl [E Hs]]]. rewrite E, Hs. exact Hov.
Qed.

Lemma merge_pass_separated (cs : list Candidate) : separated (merge_pass cs).
Proof.
  destruct cs as [| c cs]; [exact I |].
  rewrite merge_pass_cons. apply merge_from_separated.
Qed.

Lemma merge_from_fixed (cur : Candidate) (cs : list Candidate) :
  separated (cur :: cs) -> merge_from cur cs = cur :: cs.
Proof.
  revert cur. induction cs as [| c cs IH]; intros cur H; [reflexivity |].
  cbn in H. destruct H as [Hov Hs]. cbn [merge_from]. rewrite Hov.
  f_equal. now apply IH.
Qed.

Lemma merge_pass_fixed (l : list Candidate) : separated l -> merge_pass l = l.
Proof.
  destruct l as [| c cs]; [reflexivity |].
  intros H. rewrite merge_pass_cons. now apply merge_from_fixed.
Qed.

Lemma separated_firstn (n : nat) (l : list Candidate) :
  separated l -> separated (firstn n l).
Proof.
  revert l. induction n as [| n IH]; intros l H; [exact I |].
  destruct l as [| a tl]; [exact I |].
  cbn [firstn]. destruct H as [Hov Hs]. split; [| now apply IH].
  destruct n; [exact I |]. destruct tl; [exact I | exact Hov].
Qed.

Lemma separated_slice_to (n : Z) (l : list Candidate) :
  separated l -> separated (slice_to n l).
Proof.
  unfold slice_to. destruct (0 <=? n)%Z; apply separated_firstn.
Qed.

(** C5: the merge pass is idempotent.  Whatever list it is run on, running
    it again on its output returns that output unchanged; the same holds
    for the list [identify_punchline_candidates] returns. *)
Theorem merge_pass_idempotent :
  (forall candidates : list Candidate,
      merge_pass (merge_pass candidates) = merge_pass candidates)
  /\ (forall hume_data time_window,
        merge_pass (identify_punchline_candidates hume_data time_window)
        = identify_punchline_candidates hume_data time_window).
Proof.
  split.
  - intros cs. apply merge_pass_fixed, merge_pass_separated.
  - intros hume_data time_window. unfold identify_punchline_candidates.
    apply merge_pass_fixed, separated_slice_to, merge_pass_separated.
Qed.

(** ** identify_punchline_candidates *)

Lemma py_max_cases (a b : Q) :
  (a < b /\ py_max a b = b) \/ (b <= a /\ py_max a b = a).
Proof.
  unfold py_max, Qlt_bool. destruct (Qle_bool b a) eqn:H; cbn.
  - right. split; [now apply Qle_bool_iff | reflexivity].
  - left. split; [| reflexivity]. apply Qnot_le_lt. intros Hle.
    apply Qle_bool_iff in Hle. congruence.
Qed.

Lemma peak_candidate_well_formed (time_window : Q) (peak : Peak) :
  0 <= time_window -> 0 <= p_time peak ->
  well_formed (peak_candidate time_window peak).
Proof.
  intros Hw Ht. unfold well_formed, peak_candidate, c_start, c_end. cbn [fst snd].
  destruct (py_max_cases 0 (p_time peak - time_window)) as [[H ->] | [H ->]]; lra.
Qed.

Lemma burst_candidate_well_formed (burst : Segment) :
  0 <= begin_of burst -> well_formed (burst_candidate burst).
Proof.
  intros Ht. unfold well_formed, burst_candidate, c_start, c_end. cbn [fst snd].
  destruct (py_max_cases 0 (begin_of burst - 1)) as [[H ->] | [H ->]]; lra.
Qed.

Lemma absorb_well_formed (l c : Candidate) : well_formed l -> well_formed (absorb l c).
Proof.
  unfold well_formed, absorb, c_start, c_end. cbn [fst snd]. intros [H0 H1].
  split; [exact H0 |].
  destruct (py_max_cases (snd (fst c)) (snd (fst l))) as [[H ->] | [H ->]]; lra.
Qed.

Lemma merge_from_well_formed (cur : Candidate) (cs : list Candidate) :
  well_formed cur -> Forall well_formed cs -> Forall well_formed (merge_from cur cs).
Proof.
  intros Hcur Hcs. revert cur Hcur.
  induction Hcs as [| c cs Hc Hcs IH]; intros cur Hcur; cbn.
  - now constructor.
  - destruct (Qle_bool (c_start c) (c_end cur)).
    + apply IH. now apply absorb_well_formed.
    + constructor; [exact Hcur | now apply IH].
Qed.

Lemma merge_pass_well_formed (cs : list Candidate) :
  Forall well_formed cs -> Forall well_formed (merge_pass cs).
Proof.
  destruct cs as [| c cs]; [constructor |].
  intros H. rewrite merge_pass_cons. inversion H; subst.
  now apply merge_from_well_formed.
Qed.

Lemma slice_to_Forall {A : Type} (P : A -> Prop) (n : Z) (l : list A) :
  Forall P l -> Forall P (slice_to n l).
Proof.
  intros H. apply Forall_forall. intros x Hx.
  apply slice_to_incl in Hx. revert x Hx. now apply Forall_forall.
Qed.

(** C6: when no prosody or vocal-burst segment begins before time 0 and
    the time window is not negative, every returned interval starts at or
    after 0 and ends at or after its start. *)
Theorem candidates_start_nonneg_end_after_start (hume_data : HumeData) (time_window : Q) :
  Forall (fun s => 0 <= begin_of s) (segments_of (speech_prosody hume_data)) ->
  Forall (fun s => 0 <= begin_of s) (segments_of (vocal_burst hume_data)) ->
  0 <= time_window ->
  Forall (fun c => 0 <= c_start c /\ c_start c <= c_end c)
         (identify_punchline_candidates hume_data time_window).
Proof.
  intros Hpros Hburst Hw. unfold identify_punchline_candidates.
  apply slice_to_Forall, merge_pass_well_formed.
  eapply Permutation_Forall; [symmetry; apply stable_sort_perm |].
  unfold candidates_of. apply Forall_app. split; apply Forall_map.
  - apply Forall_forall. intros p Hp. apply peak_candidate_well_formed; [exact Hw |].
    apply extract_peaks_incl, emitted_peaks_source in Hp.
    destruct Hp as [s [Hin [_ [_ ->]]]].
    rewrite Forall_forall in Hpros, Hburst. destruct Hin; auto.
  - eapply Forall_impl; [| exact Hburst]. apply burst_candidate_well_formed.
Qed.

Lemma candidates_start_nonneg_end_after_start_witness :
  Forall (fun c => 0 <= c_start c /\ c_start c <= c_end c)
         (identify_punchline_candidates overlapping_record 2).
Proof.
  apply (candidates_start_nonneg_end_after_start overlapping_record 2).
  - cbn. repeat constructor; unfold Qle; cbn; lia.
  - cbn. repeat constructor; unfold Qle; cbn; lia.
  - unfold Qle; cbn; lia.
Defined.

(** The merge example of the specification: peaks at 10 and 11 with a window
    of 2 give the single interval from 8 to 13 with both reasons. *)
Example merge_example :
  identify_punchline_candidates overlapping_record 2
  = [(8, 13, "High humor/joy moment + Strong Anger moment");
     (29, 31, "Non-verbal expression")].
Proof. vm_compute. reflexivity. Qed.

(** ** Numbers within the range of the floats *)

Lemma max_float_below_limit : max_float < Py.float_limit.
Proof. vm_compute. reflexivity. Qed.

Lemma as_float_ranged (q : Q) : float_ranged q -> Py.as_float q = Py.Ok q.
Proof.
  unfold float_ranged, Py.as_float. intros H.
  destruct (Qle_bool Py.float_limit (Qabs q)) eqn:E; [| reflexivity].
  apply Qle_bool_iff in E. exfalso.
  apply (Qlt_irrefl max_float).
  eapply Qlt_le_trans; [apply max_float_below_limit |].
  eapply Qle_trans; eassumption.
Qed.

Lemma round_half_even_inject_Z (z : Z) : round_half_even (inject_Z z) = z.
Proof.
  unfold round_half_even, inject_Z. cbn [Qnum Qden].
  rewrite Z.mod_1_r, Z.div_1_r. reflexivity.
Qed.

Lemma round_half_even_abs (m : Z) (x : Q) :
  Qabs x <= inject_Z m -> (Z.abs (round_half_even x) <= m)%Z.
Proof.
  intros H. apply Qabs_Qle_condition in H. destruct H as [Hlo Hhi].
  apply round_half_even_le in Hlo, Hhi.
  change (- inject_Z m) with (inject_Z (- m)) in Hlo.
  rewrite round_half_even_inject_Z in Hlo, Hhi. lia.
Qed.

Lemma round2_percent_ranged (q : Q) :
  float_ranged (q * 100) -> float_ranged (round2 q * 100).
Proof.
  unfold float_ranged, max_float, round2. intros H.
  apply round_half_even_abs in H.
  assert (E : (round_half_even (q * 100) # 100) * 100
              == inject_Z (round_half_even (q * 100))).
  { unfold Qeq, Qmult, inject_Z. cbn [Qnum Qden]. lia. }
  rewrite E. change (Qabs (inject_Z ?k)) with (inject_Z (Z.abs k)).
  rewrite <- Zle_Qle. exact H.
Qed.

Lemma extract_peaks_ranged (hume_data : HumeData) (top_n : Z) (threshold : Q) :
  within_float_range hume_data ->
  Forall peak_ranged (extract_emotional_peaks hume_data top_n threshold).
Proof.
  intros Hr. apply Forall_forall. intros p Hp.
  apply extract_peaks_incl, emitted_peaks_source in Hp.
  destruct Hp as [s [Hin [_ [Hscore Htime]]]].
  unfold within_float_range in Hr. rewrite Forall_forall in Hr.
  destruct (Hr s) as [Hb Hs]; [apply in_or_app; exact Hin |].
  split.
  - now rewrite Htime.
  - rewrite Hscore. now apply round2_percent_ranged.
Qed.

(** ** The untyped model refines to the typed one *)

Module PyFacts.

Lemma dict_get_field {A : Type} (R : Py.value -> A -> Prop)
    (d : list (string * Py.value)) (k : string) (o : option A) (default : Py.value) (a0 : A) :
  Py.field R d k o -> R default a0 ->
  exists v, Py.dict_get (Py.VDict d) k default = Py.Ok v /\ R v (get o a0).
Proof.
  unfold Py.field, Py.dict_get. intros H H0.
  destruct (Py.lookup k d) as [v |], o as [a |]; cbn; try contradiction; eauto.
Qed.

Lemma empty_is_emotion : Py.is_emotion (Py.VDict []) empty_emotion.
Proof. exists []. repeat split. Qed.

Lemma empty_is_time : Py.is_time (Py.VDict []) empty_time.
Proof. exists []. repeat split. Qed.

Lemma empty_is_channel : Py.is_channel (Py.VDict []) empty_channel.
Proof. exists []. repeat split. Qed.

Lemma empty_is_segments : Py.is_segments (Py.VList []) [].
Proof. exists []. split; [reflexivity | constructor]. Qed.

Lemma get_dominant (v : Py.value) (s : Segment) :
  Py.is_segment v s ->
  exists dv, Py.dict_get v "dominant_emotion" (Py.VDict []) = Py.Ok dv /\ Py.is_emotion dv (dominant_of s).
Proof.
  intros [d [-> [_ [_ H]]]].
  apply (dict_get_field Py.is_emotion d _ _ _ empty_emotion H empty_is_emotion).
Qed.

Lemma get_score (dv : Py.value) (e : EmotionScore) :
  Py.is_emotion dv e -> Py.dict_get dv "score" (Py.VNum 0) = Py.Ok (Py.VNum (get (e_score e) 0)).
Proof.
  intros [d [-> [_ H]]].
  destruct (dict_get_field Py.is_num d _ _ (Py.VNum 0) 0 H eq_refl) as [v [E ->]]. exact E.
Qed.

Lemma get_name_or_unknown (dv : Py.value) (e : EmotionScore) :
  Py.is_emotion dv e ->
  Py.dict_get dv "name" (Py.VStr "Unknown") = Py.Ok (Py.VStr (get (e_name e) "Unknown")).
Proof.
  intros [d [-> [H _]]].
  destruct (dict_get_field Py.is_str d _ _ (Py.VStr "Unknown") "Unknown" H eq_refl) as [v [E ->]].
  exact E.
Qed.

Lemma get_name (dv : Py.value) (e : EmotionScore) :
  Py.is_emotion dv e -> Py.dict_get dv "name" Py.VNone = Py.Ok (Py.name_value (e_name e)).
Proof.
  intros [d [-> [H _]]]. unfold Py.field in H. unfold Py.dict_get.
  destruct (Py.lookup "name" d) as [v |], (e_name e) as [a |]; cbn; try contradiction.
  - now rewrite H.
  - reflexivity.
Qed.

Lemma name_value_eqb (a b : option string) :
  Py.eqb (Py.name_value a) (Py.name_value b) = name_eqb a b.
Proof. now destruct a, b. Qed.

Lemma get_begin (v : Py.value) (s : Segment) :
  Py.is_segment v s -> Py.begin_time v = Py.Ok (Py.VNum (begin_of s)).
Proof.
  intros [d [-> [H _]]]. unfold Py.begin_time.
  destruct (dict_get_field Py.is_time d _ _ _ empty_time H empty_is_time) as [tv [E [d' [-> H']]]].
  rewrite E. cbn [Py.bind].
  destruct (dict_get_field Py.is_num d' _ _ (Py.VNum 0) 0 H' eq_refl) as [v [E' ->]]. exact E'.
Qed.

Lemma get_text (v : Py.value) (s : Segment) :
  Py.is_segment v s -> Py.dict_get v "text" (Py.VStr "") = Py.Ok (Py.VStr (get (seg_text s) "")).
Proof.
  intros [d [-> [_ [H _]]]].
  destruct (dict_get_field Py.is_str d _ _ (Py.VStr "") "" H eq_refl) as [v [E ->]]. exact E.
Qed.

Lemma get_channel_segments
    (d : list (string * Py.value)) (k : string) (c : option Channel) :
  Py.field Py.is_channel d k c ->
  exists vs, Py.channel_segments (Py.VDict d) k = Py.Ok (Py.VList vs)
             /\ Forall2 Py.is_segment vs (segments_of c).
Proof.
  intros H. unfold Py.channel_segments.
  destruct (dict_get_field Py.is_channel d _ _ _ empty_channel H empty_is_channel)
    as [cv [E [d' [-> H']]]].
  rewrite E. cbn [Py.bind].
  destruct (dict_get_field Py.is_segments d' _ _ _ [] H' empty_is_segments)
    as [sv [E' [vs [-> Hvs]]]].
  exists vs. split; assumption.
Qed.

(** *** Loops *)

Lemma for_each_Forall2 {A B C D : Type} (R : A -> C -> Prop)
    (body : A -> Py.res (list B)) (g : C -> list D) (inj : D -> B) :
  (forall a c, R a c -> body a = Py.Ok (map inj (g c))) ->
  forall l l', Forall2 R l l' -> Py.for_each body l = Py.Ok (map inj (flat_map g l')).
Proof.
  intros Hbody l l' H. induction H as [| a c l l' Hac _ IH]; [reflexivity |].
  cbn. rewrite (Hbody a c Hac), IH. cbn. now rewrite map_app.
Qed.

Lemma for_each_In {A B D : Type}
    (body : A -> Py.res (list B)) (g : A -> list D) (inj : D -> B) (l : list A) :
  (forall a, In a l -> body a = Py.Ok (map inj (g a))) ->
  Py.for_each body l = Py.Ok (map inj (flat_map g l)).
Proof.
  induction l as [| a l IH]; intros Hbody; [reflexivity |].
  cbn. rewrite (Hbody a (or_introl eq_refl)), IH.
  - cbn. now rewrite map_app.
  - intros b Hb. apply Hbody. now right.
Qed.

Lemma for_each_map {A B C : Type}
    (body : A -> Py.res (list B)) (g : C -> B) (inj : C -> A) (l : list C) :
  (forall c, body (inj c) = Py.Ok [g c]) ->
  Py.for_each body (map inj l) = Py.Ok (map g l).
Proof.
  intros Hbody. induction l as [| c l IH]; [reflexivity |].
  cbn. now rewrite Hbody, IH.
Qed.

Lemma slice_to_map {A B : Type} (f : A -> B) (n : Z) (l : list A) :
  slice_to n (map f l) = map f (slice_to n l).
Proof.
  unfold slice_to. rewrite length_map. destruct (0 <=? n)%Z; apply firstn_map.
Qed.

Lemma stable_sort_map {A B : Type} (f : A -> B)
    (before : A -> A -> bool) (before' : B -> B -> bool) (l : list A) :
  (forall x y, before' (f x) (f y) = before x y) ->
  stable_sort before' (map f l) = map f (stable_sort before l).
Proof.
  intros Hf. induction l as [| x l IH]; [reflexivity |].
  cbn [map stable_sort fold_right]. fold (stable_sort before' (map f l)).
  fold (stable_sort before l). rewrite IH. clear IH.
  induction (stable_sort before l) as [| y s IH]; [reflexivity |].
  cbn. rewrite Hf. destruct (before x y); [reflexivity |]. cbn. now rewrite IH.
Qed.

(** *** extract_emotional_peaks *)

Section Refinement.
Variable repr : Py.value -> string.

Lemma prosody_peak_refines (threshold : Q) (v : Py.value) (s : Segment) :
  Py.is_segment v s ->
  Py.prosody_peak threshold v = Py.Ok (map Py.of_peak (prosody_peak threshold s)).
Proof.
  intros Hs. unfold Py.prosody_peak, prosody_peak.
  destruct (get_dominant v s Hs) as [dv [E Hdv]]. rewrite E. cbn [Py.bind].
  rewrite (get_score dv _ Hdv). cbn [Py.bind Py.ge_num].
  destruct (Qle_bool threshold _); [| reflexivity].
  rewrite (get_begin v s Hs), (get_name_or_unknown dv _ Hdv), (get_text v s Hs).
  reflexivity.
Qed.

Lemma burst_peak_refines (threshold : Q) (v : Py.value) (s : Segment) :
  Py.is_segment v s ->
  Py.burst_peak repr threshold v = Py.Ok (map Py.of_peak (burst_peak threshold s)).
Proof.
  intros Hs. unfold Py.burst_peak, burst_peak.
  destruct (get_dominant v s Hs) as [dv [E Hdv]]. rewrite E. cbn [Py.bind].
  rewrite (get_score dv _ Hdv). cbn [Py.bind Py.ge_num].
  destruct (Qle_bool threshold _); [| reflexivity].
  rewrite (get_begin v s Hs), (get_name_or_unknown dv _ Hdv).
  reflexivity.
Qed.

Lemma extract_emotional_peaks_refines
    (v : Py.value) (r : HumeData) (top_n : Z) (threshold : Q) :
  Py.is_hume_data v r ->
  Py.extract_emotional_peaks repr v top_n threshold
  = Py.Ok (map Py.of_peak (extract_emotional_peaks r top_n threshold)).
Proof.
  intros [d [-> [Hp [Hb _]]]].
  unfold Py.extract_emotional_peaks, extract_emotional_peaks, emitted_peaks.
  destruct (get_channel_segments d _ _ Hp) as [ps [Ep Hps]].
  destruct (get_channel_segments d _ _ Hb) as [bs [Eb Hbs]].
  rewrite Ep. cbn [Py.bind Py.iter].
  rewrite (for_each_Forall2 Py.is_segment _ (prosody_peak threshold) Py.of_peak
             (prosody_peak_refines threshold) _ _ Hps).
  cbn [Py.bind]. rewrite Eb. cbn [Py.bind Py.iter].
  rewrite (for_each_Forall2 Py.is_segment _ (burst_peak threshold) Py.of_peak
             (burst_peak_refines threshold) _ _ Hbs).
  cbn [Py.bind]. rewrite <- map_app. unfold sort_desc.
  rewrite (stable_sort_map Py.of_peak (fun x y => Qle_bool (p_score y) (p_score x)))
    by reflexivity.
  now rewrite slice_to_map.
Qed.

(** *** detect_emotional_transitions *)

Lemma Forall2_nth_error {A B : Type} (R : A -> B -> Prop)
    (l : list A) (l' : list B) (n : nat) :
  Forall2 R l l' -> (n < List.length l)%nat ->
  exists a b, nth_error l n = Some a /\ nth_error l' n = Some b /\ R a b.
Proof.
  intros H. revert n. induction H as [| a b l l' Hab _ IH]; intros n Hn; cbn in Hn.
  - lia.
  - destruct n as [| n]; cbn; [now exists a, b |]. apply IH. lia.
Qed.

Lemma transition_at_refines
    (vs : list Py.value) (segments : list Segment) (change_threshold : Q) (i : nat) :
  Forall2 Py.is_segment vs segments ->
  (1 <= i < List.length vs)%nat ->
  Py.transition_at (Py.VList vs) change_threshold i
  = Py.Ok (map Py.of_transition (transition_at segments change_threshold i)).
Proof.
  intros Hvs Hi. unfold Py.transition_at, transition_at, Py.getitem_at.
  destruct (Forall2_nth_error _ vs segments (i - 1) Hvs ltac:(lia))
    as [pv [ps [Epv [Eps Hp]]]].
  destruct (Forall2_nth_error _ vs segments i Hvs ltac:(lia))
    as [cv [cs [Ecv [Ecs Hc]]]].
  rewrite Epv, Ecv, Eps, Ecs. cbn [Py.bind].
  destruct (get_dominant pv ps Hp) as [pd [Ep Hpd]].
  destruct (get_dominant cv cs Hc) as [cd [Ec Hcd]].
  rewrite Ep. cbn [Py.bind]. rewrite Ec. cbn [Py.bind].
  rewrite (get_name pd _ Hpd), (get_name cd _ Hcd). cbn [Py.bind].
  rewrite name_value_eqb.
  destruct (negb (name_eqb _ _)); [| reflexivity].
  rewrite (get_score cd _ Hcd). cbn [Py.bind Py.ge_num].
  destruct (Qle_bool change_threshold _); [| reflexivity].
  rewrite (get_begin cv cs Hc), (get_name_or_unknown pd _ Hpd),
    (get_name_or_unknown cd _ Hcd).
  reflexivity.
Qed.

Lemma detect_emotional_transitions_refines
    (v : Py.value) (r : HumeData) (change_threshold : Q) :
  Py.is_hume_data v r ->
  Py.detect_emotional_transitions v change_threshold
  = Py.Ok (map Py.of_transition (detect_emotional_transitions r change_threshold)).
Proof.
  intros [d [-> [Hp _]]].
  unfold Py.detect_emotional_transitions, detect_emotional_transitions.
  destruct (get_channel_segments d _ _ Hp) as [vs [E Hvs]].
  rewrite E. cbn [Py.bind Py.len].
  rewrite <- (Forall2_length Hvs).
  apply for_each_In. intros i Hi. apply transition_at_refines; [exact Hvs |].
  unfold range1 in Hi. apply in_seq in Hi. lia.
Qed.

(** *** create_emotional_summary *)

Lemma format_num_ranged (prec : nat) (q : Q) :
  float_ranged q -> Py.format_num prec (Py.VNum q) = Py.Ok (format_f prec q).
Proof.
  intros H. unfold Py.format_num. now rewrite (as_float_ranged q H).
Qed.

Lemma percent_num_ranged (q : Q) :
  float_ranged (q * 100) -> Py.percent_num q = Py.Ok (percent q).
Proof.
  intros H. unfold Py.percent_num. now rewrite (as_float_ranged _ H).
Qed.

Lemma key_moment_refines (p : Peak) :
  peak_ranged p -> Py.key_moment repr (Py.of_peak p) = Py.Ok [key_moment p].
Proof.
  intros [Ht Hs]. unfold Py.key_moment. cbn [Py.of_peak Py.time Py.score Py.emotion].
  now rewrite (format_num_ranged 1 _ Ht), (percent_num_ranged _ Hs).
Qed.

Lemma for_each_map_Forall {A B C : Type}
    (body : A -> Py.res (list B)) (g : C -> B) (inj : C -> A) (l : list C) :
  Forall (fun c => body (inj c) = Py.Ok [g c]) l ->
  Py.for_each body (map inj l) = Py.Ok (map g l).
Proof.
  induction 1 as [| c l Hc _ IH]; [reflexivity |].
  cbn. now rewrite Hc, IH.
Qed.

Lemma member_strs (e : string) (parts : list string) :
  Py.member (Py.VStr e) (map Py.VStr parts) = str_in e parts.
Proof.
  unfold Py.member, str_in. induction parts as [| x parts IH]; [reflexivity |].
  cbn [map existsb]. rewrite IH. reflexivity.
Qed.

Lemma arc_add_refines (parts : list string) (e : string) :
  Py.arc_add (map Py.VStr parts) (Py.VStr e) = map Py.VStr (arc_add parts e).
Proof.
  unfold Py.arc_add, arc_add. rewrite member_strs.
  destruct (negb (str_in e parts)); [| reflexivity].
  now rewrite map_app.
Qed.

Lemma arc_fold_refines (ts : list Transition) (parts : list string) :
  fold_left (fun parts t => Py.arc_add parts (Py.to_emotion t))
            (map Py.of_transition ts) (map Py.VStr parts)
  = map Py.VStr (fold_left (fun parts t => arc_add parts (t_to_emotion t)) ts parts).
Proof.
  revert parts. induction ts as [| t ts IH]; intros parts; [reflexivity |].
  cbn [map fold_left Py.of_transition Py.to_emotion].
  rewrite arc_add_refines. apply IH.
Qed.

Lemma join_values_strs (sep : string) (parts : list string) :
  Py.join_values sep (map Py.VStr parts) = Py.Ok (join sep parts).
Proof.
  induction parts as [| s parts IH]; [reflexivity |].
  cbn [map Py.join_values join]. destruct parts as [| s' parts]; [reflexivity |].
  cbn [map] in *. now rewrite IH.
Qed.

Lemma build_arc_refines (ts : list Transition) :
  Py.build_arc (map Py.of_transition ts) = Py.Ok (build_arc ts).
Proof.
  destruct ts as [| first ts]; [reflexivity |].
  unfold Py.build_arc, build_arc. cbn [map].
  change (Py.of_transition first :: map Py.of_transition ts)
    with (map Py.of_transition (first :: ts)).
  rewrite slice_to_map.
  change (Py.from_emotion (Py.of_transition first)) with (Py.VStr (t_from_emotion first)).
  change (@nil Py.value) with (map Py.VStr []) at 1.
  rewrite arc_add_refines, arc_fold_refines, join_values_strs. reflexivity.
Qed.

Lemma mood_refines (v : Py.value) (r : HumeData) :
  Py.is_hume_data v r ->
  Py.mood v
  = Py.Ok (option_map (fun d => (Py.VStr (get (e_name d) "Unknown"),
                                 round2 (get (e_score d) 0)))
                      (mood_of r)).
Proof.
  intros [d [-> [_ [_ Hl]]]]. unfold Py.mood, mood_of.
  destruct (dict_get_field Py.is_channel d _ _ _ empty_channel Hl empty_is_channel)
    as [cv [E [d' [-> H']]]].
  rewrite E. cbn [Py.bind]. unfold Py.field in H'.
  change (Py.dict_get (Py.VDict d') "segments" Py.VNone)
    with (Py.Ok (get (Py.lookup "segments" d') Py.VNone)).
  unfold Py.getitem.
  destruct (Py.lookup "segments" d') as [sv |], (ch_segments _) as [l |];
    cbn [get Py.bind]; try contradiction; [| reflexivity].
  destruct H' as [vs [-> Hvs]].
  destruct Hvs as [| fv f vs l Hf _]; [reflexivity |].
  cbn [Py.truthy List.length Nat.eqb negb Py.bind Py.getitem_at nth_error].
  destruct (get_dominant fv f Hf) as [dv [Ed Hdv]]. rewrite Ed. cbn [Py.bind].
  rewrite (get_name_or_unknown dv _ Hdv), (get_score dv _ Hdv). reflexivity.
Qed.

Lemma create_emotional_summary_refines
    (v : Py.value) (r : HumeData) (strategy : string) (kwargs : Options) :
  Py.is_hume_data v r ->
  strategy <> "full_summary" \/ within_float_range r ->
  Py.create_emotional_summary repr v strategy kwargs
  = Py.Ok (Py.of_summary (create_emotional_summary r strategy kwargs)).
Proof.
  intros Hv Hr. unfold Py.create_emotional_summary, create_emotional_summary.
  rewrite (mood_refines v r Hv). cbn [Py.bind].
  destruct (strategy =? "peaks")%string.
  { rewrite (extract_emotional_peaks_refines v r _ _ Hv). cbn [Py.bind].
    unfold Py.of_summary, mood_summary. cbn. now destruct (mood_of r). }
  destruct (strategy =? "transitions")%string.
  { rewrite (detect_emotional_transitions_refines v r _ Hv). cbn [Py.bind].
    rewrite slice_to_map.
    unfold Py.of_summary, mood_summary. cbn. now destruct (mood_of r). }
  destruct (String.eqb_spec strategy "full_summary") as [Efull | _].
  { destruct Hr as [Hr | Hr]; [contradiction |].
    rewrite (extract_emotional_peaks_refines v r _ _ Hv). cbn [Py.bind].
    rewrite (detect_emotional_transitions_refines v r _ Hv). cbn [Py.bind].
    rewrite slice_to_map, (for_each_map_Forall _ key_moment Py.of_peak).
    2:{ apply slice_to_Forall.
        eapply Forall_impl; [| apply (extract_peaks_ranged r 3 0.35 Hr)].
        apply key_moment_refines. }
    cbn [Py.bind]. rewrite build_arc_refines. cbn [Py.bind].
    unfold Py.of_summary, mood_summary. cbn. now destruct (mood_of r). }
  unfold Py.of_summary, mood_summary. cbn. now destruct (mood_of r).
Qed.

(** *** identify_punchline_candidates *)

Lemma reason_of_refines (e : string) : Py.reason_of repr (Py.VStr e) = reason_of e.
Proof. reflexivity. Qed.

Lemma peak_candidate_refines (time_window : Q) (p : Peak) :
  float_ranged (p_time p) ->
  Py.peak_candidate repr time_window (Py.of_peak p)
  = Py.Ok [peak_candidate time_window p].
Proof.
  intros Ht. unfold Py.peak_candidate, Py.sub_num, Py.add_num.
  cbn [Py.of_peak Py.time Py.emotion]. now rewrite (as_float_ranged _ Ht).
Qed.

Lemma burst_candidate_refines (v : Py.value) (s : Segment) :
  Py.is_segment v s -> Py.burst_candidate v = Py.Ok (map id [burst_candidate s]).
Proof.
  intros Hs. unfold Py.burst_candidate. now rewrite (get_begin v s Hs).
Qed.

Lemma flat_map_singleton {A B : Type} (f : A -> B) (l : list A) :
  flat_map (fun x => [f x]) l = map f l.
Proof. induction l as [| x l IH]; cbn; congruence. Qed.

Lemma identify_punchline_candidates_refines
    (v : Py.value) (r : HumeData) (time_window : Q) :
  Py.is_hume_data v r -> within_float_range r ->
  Py.identify_punchline_candidates repr v time_window
  = Py.Ok (identify_punchline_candidates r time_window).
Proof.
  intros Hv Hr. unfold Py.identify_punchline_candidates, identify_punchline_candidates.
  rewrite (extract_emotional_peaks_refines v r _ _ Hv). cbn [Py.bind].
  rewrite (for_each_map_Forall _ (peak_candidate time_window) Py.of_peak).
  2:{ eapply Forall_impl; [| apply (extract_peaks_ranged r 10 0.25 Hr)].
      intros p [Ht _]. now apply peak_candidate_refines. }
  cbn [Py.bind].
  destruct Hv as [d [-> [_ [Hb _]]]].
  destruct (get_channel_segments d _ _ Hb) as [bs [Eb Hbs]].
  rewrite Eb. cbn [Py.bind Py.iter].
  rewrite (for_each_Forall2 Py.is_segment _ (fun s => [burst_candidate s]) id
             burst_candidate_refines _ _ Hbs).
  cbn [Py.bind]. now rewrite map_id, flat_map_singleton.
Qed.
End Refinement.

Lemma document_shape : Py.is_hume_data document document_record.
Proof.
  exists [ ("speech_prosody",
       Py.VDict [ ("segments",
          Py.VList [ Py.VDict [ ("time", Py.VDict [("begin", Py.VNum 10); ("end", Py.VNum 11)]);
                                ("text", Py.VStr "what a day");
                                ("dominant_emotion",
                                 Py.VDict [("name", Py.VStr "Joy"); ("score", Py.VNum 0.5)]) ];
                     Py.VDict [ ("dominant_emotion", Py.VDict [("score", Py.VNum 0.6)]) ];
                     Py.VDict [] ]) ]);
      ("vocal_burst", Py.VDict []);
      ("session", Py.VStr "a1") ].
  split; [reflexivity |]. cbn.
  repeat (first [ exact I | reflexivity | split | eexists | constructor ]; cbn).
Defined.
End PyFacts.

(** ** The emotional arc *)

Lemma filter_twice {A : Type} (p q r : A -> bool) (l : list A) :
  (forall y, p y = q y && r y) -> filter p l = filter r (filter q l).
Proof.
  intros H. induction l as [| y l IH]; [reflexivity |].
  cbn. rewrite H. destruct (q y); cbn; [| exact IH].
  destruct (r y); now rewrite IH.
Qed.

Lemma str_in_app (y : string) (l1 l2 : list string) :
  str_in y (l1 ++ l2) = str_in y l1 || str_in y l2.
Proof. apply existsb_app. Qed.

Lemma fold_arc_add (tos parts : list string) :
  fold_left arc_add tos parts
  = parts ++ filter (fun y => negb (str_in y parts)) (distinct tos).
Proof.
  revert parts. induction tos as [| x tos IH]; intros parts.
  - cbn. now rewrite app_nil_r.
  - cbn [fold_left distinct filter]. rewrite IH. unfold arc_add.
    destruct (str_in x parts) eqn:Hx; cbn [negb].
    + f_equal. apply filter_twice. intros y.
      destruct (String.eqb_spec y x) as [-> | Hne]; cbn; [now rewrite Hx | reflexivity].
    + rewrite <- app_assoc. cbn [app]. do 2 f_equal.
      apply filter_twice. intros y. rewrite str_in_app. cbn.
      rewrite orb_false_r, negb_orb. apply andb_comm.
Qed.

Lemma fold_left_map {A B C : Type} (f : A -> B -> A) (g : C -> B) (l : list C) (a : A) :
  fold_left (fun acc x => f acc (g x)) l a = fold_left f (map g l) a.
Proof. revert a. induction l as [| x l IH]; intros a; cbn; [reflexivity | apply IH]. Qed.

Lemma build_arc_distinct (first : Transition) (rest : list Transition) :
  build_arc (first :: rest)
  = Some (join arrow (distinct (t_from_emotion first
                                  :: map t_to_emotion (firstn 3 (first :: rest))))).
Proof.
  unfold build_arc. change (slice_to 3 (first :: rest)) with (firstn 3 (first :: rest)).
  rewrite (fold_left_map arc_add t_to_emotion), fold_arc_add.
  do 2 f_equal. cbn [arc_add str_in existsb negb app distinct]. f_equal.
  apply filter_ext. intros y. cbn. now rewrite orb_false_r.
Qed.

(** C7: under "full_summary" the arc is the first transition's
    [from_emotion] followed by the [to_emotion]s of the first three
    transitions, every name kept at its first occurrence only, joined with
    the arrow; without a transition the key is absent. *)
Theorem full_summary_emotional_arc (hume_data : HumeData) (kwargs : Options) :
  emotional_arc (create_emotional_summary hume_data "full_summary" kwargs)
  = match detect_emotional_transitions hume_data 0.25 with
    | [] => None
    | (first :: _) as transitions =>
        Some (join " → "
                (distinct (t_from_emotion first
                             :: map t_to_emotion (firstn 3 transitions))))
    end.
Proof.
  unfold create_emotional_summary. cbn [String.eqb Ascii.eqb Bool.eqb emotional_arc].
  destruct (detect_emotional_transitions hume_data 0.25) as [| first rest]; [reflexivity |].
  apply build_arc_distinct.
Qed.

Lemma distinct_NoDup (l : list string) : NoDup (distinct l).
Proof.
  induction l as [| x l IH]; cbn; constructor.
  - rewrite filter_In. intros [_ H]. now rewrite String.eqb_refl in H.
  - now apply NoDup_filter.
Qed.

(** ** Unrecognised strategies *)

(** C8: a strategy other than "peaks", "transitions" and "full_summary"
    raises nothing on a document of the input shape, and the summary holds
    the overall-mood fields only: both of them when there is a language
    segment, no key at all otherwise. *)
Theorem unknown_strategy_mood_only
    (repr : Py.value -> string) (v : Py.value) (hume_data : HumeData)
    (strategy : string) (kwargs : Options) :
  Py.is_hume_data v hume_data ->
  strategy <> "peaks" -> strategy <> "transitions" -> strategy <> "full_summary" ->
  let summary := create_emotional_summary hume_data strategy kwargs in
  Py.create_emotional_summary repr v strategy kwargs = Py.Ok (Py.of_summary summary)
  /\ summary
     = match ch_segments (get (language hume_data) empty_channel) with
       | Some (first :: _) =>
           {| overall_mood := Some (get (e_name (dominant_of first)) "Unknown");
              mood_confidence := Some (round2 (get (e_score (dominant_of first)) 0));
              emotional_peaks := None;
              emotional_transitions := None;
              key_moments := None;
              emotional_arc := None |}
       | _ => mkSummary None None None None None None
       end.
Proof.
  intros Hv H1 H2 H3 summary. subst summary. split.
  - apply PyFacts.create_emotional_summary_refines; [exact Hv | now left].
  - unfold create_emotional_summary.
    apply String.eqb_neq in H1, H2, H3. rewrite H1, H2, H3.
    unfold mood_summary, mood_of.
    destruct (ch_segments _) as [[| first rest] |]; reflexivity.
Qed.

Lemma unknown_strategy_mood_only_witness :
  create_emotional_summary document_record "everything" (mkOptions None None None)
  = {| overall_mood := None; mood_confidence := None; emotional_peaks := None;
       emotional_transitions := None; key_moments := None; emotional_arc := None |}.
Proof.
  apply (unknown_strategy_mood_only (fun _ => "") document document_record
           "everything" (mkOptions None None None) PyFacts.document_shape);
    discriminate.
Defined.

(** ** Reasons of vocal-burst labels *)

Lemma prefix_append (s t : string) : String.prefix s (s ++ t) = true.
Proof.
  induction s as [| a s IH]; [now destruct t |].
  cbn. destruct (ascii_dec a a); [exact IH | congruence].
Qed.

Lemma burst_peak_label (threshold : Q) (burst : Segment) (p : Peak) :
  In p (burst_peak threshold burst) -> String.prefix "VocalBurst:" (p_emotion p) = true.
Proof.
  unfold burst_peak. destruct (Qle_bool _ _); [| contradiction].
  intros [<- | []]. apply prefix_append.
Qed.

(** C9: a peak whose label begins with "VocalBurst:" is given the reason
    "Strong <label> moment", whatever follows the prefix, and so none of
    the four category reasons. *)
Theorem vocal_burst_label_generic_reason (time_window : Q) (peak : Peak) :
  String.prefix "VocalBurst:" (p_emotion peak) = true ->
  let reason := c_reason (peak_candidate time_window peak) in
  reason = ("Strong " ++ p_emotion peak ++ " moment")%string
  /\ ~ In reason ["High humor/joy moment"; "Emotional/touching moment";
                  "Unexpected twist"; "Insightful observation"].
Proof.
  intros Hp. unfold peak_candidate, c_reason. cbn [snd].
  destruct (p_emotion peak) as [| c rest]; [discriminate |].
  cbn [String.prefix] in Hp. destruct (ascii_dec "V" c) as [<- |]; [| discriminate].
  split; [reflexivity |].
  cbn. intros [H | [H | [H | [H | []]]]]; discriminate.
Qed.

Lemma vocal_burst_label_generic_reason_witness :
  c_reason (peak_candidate 2 (mkPeak 3 "VocalBurst:Joy" 0.5 "[Non-verbal expression]"))
  = "Strong VocalBurst:Joy moment".
Proof.
  apply (vocal_burst_label_generic_reason 2
           (mkPeak 3 "VocalBurst:Joy" 0.5 "[Non-verbal expression]")).
  reflexivity.
Defined.

(** ** The key-moments line *)




Example quiet_record_prompt :
  format_for_prompt (create_emotional_summary quiet_record "full_summary" (mkOptions None None None))
  = ("Overall mood: Calmness" ++ newline ++ "Emotional journey: Calmness → Joy"
       ++ newline ++ "Key moments: ")%string.
Proof. vm_compute. reflexivity. Qed.

(** ** Totality on the input shape *)

(** C2 fails as stated: a begin time can be an integer too large for a
    float (here 10^400, which [json.loads] parses to an [int]).  The
    document is of the input shape, and both [identify_punchline_candidates]
    (at [peak['time'] - time_window]) and "full_summary" (at
    [f"{peak['time']:.1f}s"]) raise [OverflowError] on it. *)
Lemma huge_begin_time_raises :
  Py.is_hume_data huge_document huge_record
  /\ Py.identify_punchline_candidates (fun _ => "") huge_document 2
     = Py.Raise Py.OverflowError
  /\ Py.create_emotional_summary (fun _ => "") huge_document "full_summary"
       (mkOptions None None None)
     = Py.Raise Py.OverflowError.
Proof.
  split; [| split; vm_compute; reflexivity].
  exists [ ("speech_prosody",
            Py.VDict [ ("segments",
              Py.VList [ Py.VDict [ ("time", Py.VDict [("begin", Py.VNum huge)]);
                                    ("dominant_emotion",
                                     Py.VDict [("name", Py.VStr "Joy");
                                               ("score", Py.VNum 0.5)]) ] ]) ]) ].
  split; [reflexivity |]. cbn -[huge].
  repeat (first [ exact I | reflexivity | split | eexists | constructor ]; cbn -[huge]).
Qed.

(** C2, as amended: on every document of the input shape (each channel,
    each list of segments and each nested field present or absent)
    [extract_emotional_peaks], [detect_emotional_transitions] and
    [create_emotional_summary] under every strategy but "full_summary"
    raise nothing; "full_summary" and [identify_punchline_candidates] raise
    nothing when the begin times and the hundredfold scores are within the
    range of the floats.  They return what the typed functions compute, in
    which an absent number counts as 0, an absent label as "Unknown" and an
    absent channel as the empty sequence. *)
Theorem total_on_input_shape
    (repr : Py.value -> string) (v : Py.value) (hume_data : HumeData) :
  Py.is_hume_data v hume_data ->
  (forall top_n threshold,
      Py.extract_emotional_peaks repr v top_n threshold
      = Py.Ok (map Py.of_peak (extract_emotional_peaks hume_data top_n threshold)))
  /\ (forall change_threshold,
        Py.detect_emotional_transitions v change_threshold
        = Py.Ok (map Py.of_transition
                     (detect_emotional_transitions hume_data change_threshold)))
  /\ (forall strategy kwargs,
        strategy <> "full_summary" \/ within_float_range hume_data ->
        Py.create_emotional_summary repr v strategy kwargs
        = Py.Ok (Py.of_summary (create_emotional_summary hume_data strategy kwargs)))
  /\ (within_float_range hume_data ->
      forall time_window,
        Py.identify_punchline_candidates repr v time_window
        = Py.Ok (identify_punchline_candidates hume_data time_window)).
Proof.
  intros Hv. repeat split; intros.
  - now apply PyFacts.extract_emotional_peaks_refines.
  - now apply PyFacts.detect_emotional_transitions_refines.
  - now apply PyFacts.create_emotional_summary_refines.
  - now apply PyFacts.identify_punchline_candidates_refines.
Qed.

Lemma document_ranged : within_float_range document_record.
Proof.
  unfold within_float_range. cbn.
  repeat constructor; unfold float_ranged, Qle; vm_compute; discriminate.
Defined.

Lemma total_on_input_shape_witness :
  Py.is_hume_data document document_record
  /\ Py.identify_punchline_candidates (fun _ => "") document 2
     = Py.Ok (identify_punchline_candidates document_record 2).
Proof.
  split; [exact PyFacts.document_shape |].
  apply (total_on_input_shape (fun _ => "") document document_record
           PyFacts.document_shape).
  exact document_ranged.
Defined.

(** The defaults at work: the second segment of the document has no name and
    no time, the third has no dominant emotion at all. *)
Example document_peaks :
  extract_emotional_peaks document_record 5 0
  = [ mkPeak 0 "Unknown" 0.60 "...";
      mkPeak 10 "Joy" 0.50 "what a day...";
      mkPeak 0 "Unknown" 0.00 "..." ].
Proof. vm_compute. reflexivity. Qed.

(** Outside the shape the functions do raise: a [text] that is [None], a
    score that is a string. *)
Example null_text_raises :
  Py.extract_emotional_peaks (fun _ => "")
    (Py.VDict [("speech_prosody",
       Py.VDict [("segments",
          Py.VList [Py.VDict [("text", Py.VNone);
                              ("dominant_emotion", Py.VDict [("score", Py.VNum 0.5)])]])])])
    5 0.3
  = Py.Raise Py.TypeError.
Proof. vm_compute. reflexivity. Qed.

Example string_score_raises :
  Py.detect_emotional_transitions
    (Py.VDict [("speech_prosody",
       Py.VDict [("segments",
          Py.VList [Py.VDict [];
                    Py.VDict [("dominant_emotion",
                               Py.VDict [("name", Py.VStr "Joy");
                                         ("score", Py.VStr "high")])]])])])
    0.2
  = Py.Raise Py.TypeError.
Proof. vm_compute. reflexivity. Qed.

(** * Further properties *)

(** ** How many peaks, and which *)

Lemma slice_to_length_eq {A : Type} (n : Z) (l : list A) :
  Z.of_nat (List.length (slice_to n l))
  = if (0 <=? n)%Z then Z.min n (Z.of_nat (List.length l))
    else Z.max 0 (Z.of_nat (List.length l) + n).
Proof.
  unfold slice_to. destruct (Z.leb_spec 0 n); rewrite length_firstn; lia.
Qed.

Lemma flat_map_peak_length (threshold : Q) (make : Q -> Segment -> list Peak)
    (segments : list Segment) :
  (forall s, List.length (make threshold s)
             = if Qle_bool threshold (get (e_score (dominant_of s)) 0) then 1%nat else 0%nat) ->
  List.length (flat_map (make threshold) segments)
  = List.length (filter (fun s => Qle_bool threshold (get (e_score (dominant_of s)) 0))
                        segments).
Proof.
  intros Hmake. induction segments as [| s l IH]; [reflexivity |].
  cbn [flat_map filter]. rewrite length_app, Hmake, IH.
  destruct (Qle_bool threshold _); reflexivity.
Qed.

Lemma emitted_peaks_length (hume_data : HumeData) (threshold : Q) :
  List.length (emitted_peaks hume_data threshold)
  = List.length (passing_segments hume_data threshold).
Proof.
  unfold emitted_peaks, passing_segments.
  rewrite filter_app, !length_app.
  rewrite (flat_map_peak_length threshold prosody_peak),
    (flat_map_peak_length threshold burst_peak); [reflexivity | |];
    intros s; unfold prosody_peak, burst_peak;
    destruct (Qle_bool threshold _); reflexivity.
Qed.

Lemma extract_peaks_length (hume_data : HumeData) (top_n : Z) (threshold : Q) :
  Z.of_nat (List.length (extract_emotional_peaks hume_data top_n threshold))
  = if (0 <=? top_n)%Z
    then Z.min top_n (Z.of_nat (List.length (passing_segments hume_data threshold)))
    else Z.max 0 (Z.of_nat (List.length (passing_segments hume_data threshold)) + top_n).
Proof.
  unfold extract_emotional_peaks. rewrite slice_to_length_eq.
  unfold sort_desc. rewrite (Permutation_length (stable_sort_perm _ _)).
  now rewrite emitted_peaks_length.
Qed.

(** X1: the number of peaks returned is the smaller of [top_n] and the
    number of prosody and vocal-burst segments whose score is at least the
    threshold; a negative [top_n] does not give the empty list but drops
    that many peaks from the low end. *)
Theorem extract_peaks_count (hume_data : HumeData) (top_n : Z) (threshold : Q) :
  let passing := Z.of_nat (List.length (passing_segments hume_data threshold)) in
  Z.of_nat (List.length (extract_emotional_peaks hume_data top_n threshold))
  = if (0 <=? top_n)%Z then Z.min top_n passing else Z.max 0 (passing + top_n).
Proof. apply extract_peaks_length. Qed.

Lemma filter_length_le_impl {A : Type} (p q : A -> bool) (l : list A) :
  (forall x, p x = true -> q x = true) ->
  (List.length (filter p l) <= List.length (filter q l))%nat.
Proof.
  intros Hpq. induction l as [| x l IH]; [reflexivity |].
  cbn. destruct (p x) eqn:Hp.
  - rewrite (Hpq x Hp). cbn. lia.
  - destruct (q x); cbn; lia.
Qed.

(** X2: raising the threshold never yields more peaks. *)
Theorem extract_peaks_threshold_antitone
    (hume_data : HumeData) (top_n : Z) (low high : Q) :
  low <= high ->
  (List.length (extract_emotional_peaks hume_data top_n high)
   <= List.length (extract_emotional_peaks hume_data top_n low))%nat.
Proof.
  intros Hle.
  pose proof (extract_peaks_length hume_data top_n high) as Hh.
  pose proof (extract_peaks_length hume_data top_n low) as Hl.
  assert (Hp : (List.length (passing_segments hume_data high)
                <= List.length (passing_segments hume_data low))%nat).
  { apply filter_length_le_impl. intros s H. apply Qle_bool_iff in H.
    apply Qle_bool_iff. eapply Qle_trans; eassumption. }
  destruct (0 <=? top_n)%Z; lia.
Qed.

Lemma extract_peaks_threshold_antitone_witness :
  (List.length (extract_emotional_peaks example_record 5 0.45)
   <= List.length (extract_emotional_peaks example_record 5 0.3))%nat.
Proof.
  apply (extract_peaks_threshold_antitone example_record 5 0.3 0.45).
  unfold Qle. cbn. lia.
Defined.

Lemma StronglySorted_app_cross {A : Type} (R : A -> A -> Prop) (l1 l2 : list A) :
  StronglySorted R (l1 ++ l2) -> forall a b, In a l1 -> In b l2 -> R a b.
Proof.
  induction l1 as [| x l1 IH]; intros Hs a b Ha Hb; [contradiction |].
  cbn in Hs. inversion Hs as [| ? ? Hl Hx]; subst.
  destruct Ha as [-> | Ha]; [| now apply IH].
  rewrite Forall_forall in Hx. apply Hx, in_or_app. now right.
Qed.

(** X3: the peaks returned are the highest-scoring ones: the emitted peaks
    are the returned ones and the dropped ones, and no dropped peak scores
    more than a returned one. *)
Theorem extract_peaks_keeps_highest (hume_data : HumeData) (top_n : Z) (threshold : Q) :
  exists dropped,
    Permutation (extract_emotional_peaks hume_data top_n threshold ++ dropped)
                (emitted_peaks hume_data threshold)
    /\ forall p d,
         In p (extract_emotional_peaks hume_data top_n threshold) ->
         In d dropped -> p_score d <= p_score p.
Proof.
  unfold extract_emotional_peaks.
  destruct (slice_to_prefix top_n (sort_desc p_score (emitted_peaks hume_data threshold)))
    as [rest E].
  exists rest. split.
  - rewrite <- E. apply stable_sort_perm.
  - pose proof (sort_desc_sorted p_score (emitted_peaks hume_data threshold)) as Hs.
    rewrite E in Hs. intros p d Hp Hd.
    apply (StronglySorted_app_cross _ _ _ Hs p d Hp Hd).
Qed.

Lemma substring_length_le (n : nat) (s : string) :
  (String.length (substring 0 n s) <= n)%nat.
Proof.
  revert s. induction n as [| n IH]; intros [| c s]; cbn; try lia.
  specialize (IH s). lia.
Qed.

Lemma string_length_append (s t : string) :
  String.length (s ++ t) = (String.length s + String.length t)%nat.
Proof. induction s as [| c s IH]; cbn; [reflexivity | now rewrite IH]. Qed.

(** X4: no snippet is longer than 33 characters: at most 30 of the text and
    the three dots, or the fixed placeholder of a vocal burst. *)
Theorem extract_peaks_snippet_bounded
    (hume_data : HumeData) (top_n : Z) (threshold : Q) :
  Forall (fun p => (String.length (p_text_snippet p) <= 33)%nat)
         (extract_emotional_peaks hume_data top_n threshold).
Proof.
  apply Forall_forall. intros p Hp. apply extract_peaks_incl in Hp.
  unfold emitted_peaks in Hp. rewrite in_app_iff, !in_flat_map in Hp.
  destruct Hp as [[s [_ Hp]] | [s [_ Hp]]];
    unfold prosody_peak, burst_peak in Hp;
    destruct (Qle_bool threshold _); try contradiction;
    destruct Hp as [<- | []]; cbn [p_text_snippet].
  - rewrite string_length_append.
    pose proof (substring_length_le 30 (get (seg_text s) "")). cbn. lia.
  - cbn. lia.
Qed.

(** ** How many transitions, in which order, between which labels *)

Lemma flat_map_length_le {A B : Type} (f : A -> list B) (l : list A) :
  (forall x, (List.length (f x) <= 1)%nat) ->
  (List.length (flat_map f l) <= List.length l)%nat.
Proof.
  intros Hf. induction l as [| x l IH]; [reflexivity |].
  cbn. rewrite length_app. specialize (Hf x). lia.
Qed.

Lemma transition_at_length (segments : list Segment) (change_threshold : Q) (i : nat) :
  (List.length (transition_at segments change_threshold i) <= 1)%nat.
Proof.
  unfold transition_at.
  destruct (nth_error segments (i - 1)); [| cbn; lia].
  destruct (nth_error segments i); [| cbn; lia].
  destruct (negb _); [| cbn; lia].
  destruct (Qle_bool _ _); cbn; lia.
Qed.

(** X5: [n] prosody segments give at most [n - 1] transitions. *)
Theorem detect_transitions_count (hume_data : HumeData) (change_threshold : Q) :
  (List.length (detect_emotional_transitions hume_data change_threshold)
   <= List.length (segments_of (speech_prosody hume_data)) - 1)%nat.
Proof.
  unfold detect_emotional_transitions.
  etransitivity; [apply flat_map_length_le; intros i; apply transition_at_length |].
  unfold range1. now rewrite length_seq.
Qed.

Lemma StronglySorted_app {A : Type} (R : A -> A -> Prop) (l1 l2 : list A) :
  StronglySorted R l1 -> StronglySorted R l2 ->
  (forall a b, In a l1 -> In b l2 -> R a b) ->
  StronglySorted R (l1 ++ l2).
Proof.
  intros H1 H2 H. induction H1 as [| x l1 Hs IH Hx]; [exact H2 |].
  cbn. constructor.
  - apply IH. intros a b Ha Hb. apply H; [now right | exact Hb].
  - apply Forall_app. split; [exact Hx |].
    apply Forall_forall. intros b Hb. apply H; [now left | exact Hb].
Qed.

Lemma StronglySorted_nth_error {A : Type} (R : A -> A -> Prop) (l : list A)
    (i j : nat) (a b : A) :
  StronglySorted R l -> (i < j)%nat ->
  nth_error l i = Some a -> nth_error l j = Some b -> R a b.
Proof.
  intros Hs. revert i j. induction Hs as [| x l Hs IH Hx]; intros i j Hij Hi Hj.
  - now destruct i.
  - destruct j as [| j]; [lia |]. cbn in Hj. destruct i as [| i].
    + cbn in Hi. injection Hi as ->. rewrite Forall_forall in Hx.
      apply Hx. eapply nth_error_In; eassumption.
    + cbn in Hi. apply (IH i j); [lia | assumption | assumption].
Qed.

Lemma transitions_from_sorted
    (segments : list Segment) (change_threshold : Q) (start len : nat) :
  StronglySorted (fun a b => begin_of a <= begin_of b) segments ->
  StronglySorted (fun a b => t_time a <= t_time b)
                 (flat_map (transition_at segments change_threshold) (seq start len)).
Proof.
  intros Hs. revert start. induction len as [| len IH]; intros start; [constructor |].
  cbn [seq flat_map]. apply StronglySorted_app.
  - pose proof (transition_at_length segments change_threshold start) as Hl.
    destruct (transition_at segments change_threshold start) as [| t [| t' l]];
      [constructor | repeat constructor | cbn in Hl; lia].
  - apply IH.
  - intros a b Ha Hb. apply in_flat_map in Hb. destruct Hb as [j [Hj Hb]].
    apply in_seq in Hj.
    destruct (transition_at_source _ _ _ _ Ha) as [pa [ca [_ [Hca [_ [_ ->]]]]]].
    destruct (transition_at_source _ _ _ _ Hb) as [pb [cb [_ [Hcb [_ [_ ->]]]]]].
    cbn [t_time].
    apply (StronglySorted_nth_error _ segments start j ca cb Hs); [lia | assumption | assumption].
Qed.

(** X6: the transitions come in the order of the segments; when the begin
    times of the prosody segments never decrease, neither do the times of
    the transitions. *)
Theorem detect_transitions_chronological (hume_data : HumeData) (change_threshold : Q) :
  StronglySorted (fun a b => begin_of a <= begin_of b)
                 (segments_of (speech_prosody hume_data)) ->
  StronglySorted (fun a b => t_time a <= t_time b)
                 (detect_emotional_transitions hume_data change_threshold).
Proof.
  intros Hs. unfold detect_emotional_transitions, range1.
  now apply transitions_from_sorted.
Qed.

Lemma detect_transitions_chronological_witness :
  StronglySorted (fun a b => t_time a <= t_time b)
                 (detect_emotional_transitions mixed_record 0.2).
Proof.
  apply (detect_transitions_chronological mixed_record 0.2).
  cbn. repeat constructor; unfold Qle; cbn; lia.
Defined.

(** X7: a transition never leads from a label to the same label, unless
    that label is "Unknown" (one of the two names is missing and the other
    is the string "Unknown"). *)
Theorem detect_transitions_distinct_labels
    (hume_data : HumeData) (change_threshold : Q) (t : Transition) :
  In t (detect_emotional_transitions hume_data change_threshold) ->
  t_from_emotion t = t_to_emotion t ->
  t_from_emotion t = "Unknown".
Proof.
  unfold detect_emotional_transitions. intros Ht. apply in_flat_map in Ht.
  destruct Ht as [i [_ Ht]].
  destruct (transition_at_source _ _ _ _ Ht) as [prev [curr [_ [_ [Hne [_ ->]]]]]].
  cbn [t_from_emotion t_to_emotion].
  destruct (e_name (dominant_of prev)) as [a |], (e_name (dominant_of curr)) as [b |];
    cbn [get]; intros E; congruence.
Qed.

Lemma detect_transitions_distinct_labels_witness :
  detect_emotional_transitions unnamed_record 0.2 = [mkTransition 1 "Unknown" "Unknown" 0.50]
  /\ t_from_emotion (mkTransition 1 "Unknown" "Unknown" 0.50) = "Unknown".
Proof.
  split; [reflexivity |].
  apply (detect_transitions_distinct_labels unnamed_record 0.2); [| reflexivity].
  left. reflexivity.
Defined.

(** ** The size of a summary *)

Lemma distinct_length (l : list string) :
  (List.length (distinct l) <= List.length l)%nat.
Proof.
  induction l as [| x l IH]; [reflexivity |].
  cbn. pose proof (filter_length_le (fun y => negb (y =? x)%string) (distinct l)). lia.
Qed.

Lemma slice_to_length_le {A : Type} (n : nat) (l : list A) :
  (List.length (slice_to (Z.of_nat n) l) <= n)%nat.
Proof.
  pose proof (slice_to_length (Z.of_nat n) l ltac:(lia)). lia.
Qed.

Lemma arc_parts_of_distinct (first : Transition) (rest : list Transition) :
  arc_parts_of (first :: rest)
  = distinct (t_from_emotion first :: map t_to_emotion (firstn 3 (first :: rest))).
Proof.
  unfold arc_parts_of. change (slice_to 3 (first :: rest)) with (firstn 3 (first :: rest)).
  rewrite (fold_left_map arc_add t_to_emotion), fold_arc_add.
  cbn [arc_add str_in existsb negb app distinct]. f_equal.
  apply filter_ext. intros y. cbn. now rewrite orb_false_r.
Qed.

Lemma build_arc_parts (transitions : list Transition) (arc : string) :
  build_arc transitions = Some arc ->
  arc = join arrow (arc_parts_of transitions)
  /\ NoDup (arc_parts_of transitions)
  /\ (1 <= List.length (arc_parts_of transitions) <= 4)%nat.
Proof.
  destruct transitions as [| first rest]; [discriminate |].
  intros H. split; [unfold build_arc, arc_parts_of in *; congruence |].
  rewrite arc_parts_of_distinct. split; [apply distinct_NoDup |].
  split; [cbn [distinct List.length]; lia |].
  etransitivity; [apply distinct_length |].
  cbn [List.length]. rewrite length_map.
  pose proof (length_firstn 3 (first :: rest)). lia.
Qed.

(** X8: a summary is small whatever the record holds: at most [top_n]
    peaks (5 by default) under "peaks", at most 5 transitions under
    "transitions", at most 2 key moments under "full_summary"; and the arc
    is the arrow-join of the list [arc_parts] the code has built from the
    transitions detected at 0.25, which holds 1 to 4 names, none of them
    twice. *)
Theorem summary_bounded (hume_data : HumeData) (strategy : string) (kwargs : Options) :
  let summary := create_emotional_summary hume_data strategy kwargs in
  let arc_parts := arc_parts_of (detect_emotional_transitions hume_data 0.25) in
  (forall peaks, emotional_peaks summary = Some peaks ->
     (0 <= get (opt_top_n kwargs) 5)%Z ->
     (Z.of_nat (List.length peaks) <= get (opt_top_n kwargs) 5)%Z)
  /\ (forall transitions, emotional_transitions summary = Some transitions ->
        (List.length transitions <= 5)%nat)
  /\ (forall moments, key_moments summary = Some moments ->
        (List.length moments <= 2)%nat)
  /\ (forall arc, emotional_arc summary = Some arc ->
        arc = join " → " arc_parts /\ NoDup arc_parts
        /\ (1 <= List.length arc_parts <= 4)%nat).
Proof.
  intros summary arc_parts. subst summary arc_parts. unfold create_emotional_summary.
  destruct (strategy =? "peaks")%string; [| destruct (strategy =? "transitions")%string;
    [| destruct (strategy =? "full_summary")%string]];
    cbn [emotional_peaks emotional_transitions key_moments emotional_arc mood_summary];
    (split; [| split; [| split]]); try (intros x; discriminate).
  - intros peaks [= <-] Hn. now apply slice_to_length.
  - intros ts [= <-]. apply (slice_to_length_le 5).
  - intros ms [= <-]. rewrite length_map. apply (slice_to_length_le 2).
  - intros arc. apply build_arc_parts.
Qed.

(** ** What the formatter shows *)

(** X9: the formatter has no line for transitions: the text of a
    "transitions" summary is the overall-mood line alone, or empty without
    a language segment, whatever transitions were detected. *)
Theorem transitions_summary_prompt (hume_data : HumeData) (kwargs : Options) :
  format_for_prompt (create_emotional_summary hume_data "transitions" kwargs)
  = match mood_of hume_data with
    | Some mood => ("Overall mood: " ++ get (e_name mood) "Unknown")%string
    | None => ""
    end.
Proof.
  unfold create_emotional_summary, format_for_prompt, prompt_lines, mood_summary.
  cbn [String.eqb Ascii.eqb Bool.eqb overall_mood emotional_peaks emotional_arc key_moments].
  now destruct (mood_of hume_data).
Qed.

(** ** The intervals returned *)

Lemma candidates_well_formed (hume_data : HumeData) (time_window : Q) :
  Forall (fun s => 0 <= begin_of s) (segments_of (speech_prosody hume_data)) ->
  Forall (fun s => 0 <= begin_of s) (segments_of (vocal_burst hume_data)) ->
  0 <= time_window ->
  Forall well_formed (candidates_of hume_data time_window).
Proof.
  intros Hpros Hburst Hw.
  unfold candidates_of. apply Forall_app. split; apply Forall_map.
  - apply Forall_forall. intros p Hp. apply peak_candidate_well_formed; [exact Hw |].
    apply extract_peaks_incl, emitted_peaks_source in Hp.
    destruct Hp as [s [Hin [_ [_ ->]]]].
    rewrite Forall_forall in Hpros, Hburst. destruct Hin; auto.
  - eapply Forall_impl; [| exact Hburst]. apply burst_candidate_well_formed.
Qed.

Lemma separated_well_formed_ordered (l : list Candidate) :
  separated l -> Forall well_formed l ->
  StronglySorted (fun a b => c_end a < c_start b) l.
Proof.
  induction l as [| a tl IH]; intros Hs Hw; [constructor |].
  destruct Hs as [Hov Hs]. inversion Hw as [| ? ? Ha Htl]; subst.
  specialize (IH Hs Htl). constructor; [exact IH |].
  destruct tl as [| b tl']; [constructor |].
  assert (Hab : c_end a < c_start b).
  { apply Qnot_le_lt. intros Hle. apply Qle_bool_iff in Hle. congruence. }
  constructor; [exact Hab |].
  inversion IH as [| ? ? _ Hb]; subst. inversion Htl as [| ? ? [_ Hwb] _]; subst.
  eapply Forall_impl; [| exact Hb]. intros c Hc. cbn in Hc.
  eapply Qlt_trans; [| exact Hc]. eapply Qlt_le_trans; eassumption.
Qed.

(** X10: when no segment begins before time 0 and the window is not
    negative, the at most 7 intervals returned are in chronological order
    and disjoint: each ends strictly before every later one starts. *)
Theorem candidates_disjoint_ordered (hume_data : HumeData) (time_window : Q) :
  Forall (fun s => 0 <= begin_of s) (segments_of (speech_prosody hume_data)) ->
  Forall (fun s => 0 <= begin_of s) (segments_of (vocal_burst hume_data)) ->
  0 <= time_window ->
  (List.length (identify_punchline_candidates hume_data time_window) <= 7)%nat
  /\ StronglySorted (fun a b => c_end a < c_start b)
                    (identify_punchline_candidates hume_data time_window).
Proof.
  intros Hpros Hburst Hw. unfold identify_punchline_candidates. split.
  - apply (slice_to_length_le 7).
  - apply separated_well_formed_ordered.
    + apply separated_slice_to, merge_pass_separated.
    + apply slice_to_Forall, merge_pass_well_formed.
      eapply Permutation_Forall; [symmetry; apply stable_sort_perm |].
      now apply candidates_well_formed.
Qed.

Lemma candidates_disjoint_ordered_witness :
  StronglySorted (fun a b => c_end a < c_start b)
                 (identify_punchline_candidates overlapping_record 2).
Proof.
  apply (candidates_disjoint_ordered overlapping_record 2).
  - cbn. repeat constructor; unfold Qle; cbn; lia.
  - cbn. repeat constructor; unfold Qle; cbn; lia.
  - unfold Qle; cbn; lia.
Defined.

Lemma within_refl (c : Candidate) : within c c.
Proof. split; apply Qle_refl. Qed.

Lemma within_absorb_l (x cur c : Candidate) : within x cur -> within x (absorb cur c).
Proof.
  unfold within, absorb, c_start, c_end. cbn [fst snd]. intros [H1 H2].
  split; [exact H1 |].
  destruct (py_max_cases (snd (fst c)) (snd (fst cur))) as [[H ->] | [H ->]]; lra.
Qed.

Lemma within_absorb_r (cur c : Candidate) :
  c_start cur <= c_start c -> within c (absorb cur c).
Proof.
  unfold within, absorb, c_start, c_end. cbn [fst snd]. intros H1.
  split; [exact H1 |].
  destruct (py_max_cases (snd (fst c)) (snd (fst cur))) as [[H ->] | [H ->]]; lra.
Qed.

Lemma merge_from_covers (cur : Candidate) (cs : list Candidate) (x : Candidate) :
  StronglySorted (fun a b => c_start a <= c_start b) (cur :: cs) ->
  within x cur \/ In x cs ->
  exists m, In m (merge_from cur cs) /\ within x m.
Proof.
  revert cur. induction cs as [| c cs IH]; intros cur Hs Hx.
  - destruct Hx as [Hx | []]. exists cur. split; [now left | exact Hx].
  - inversion Hs as [| ? ? Hs' Hcur]; subst.
    inversion Hs' as [| ? ? Hs'' Hc]; subst.
    inversion Hcur as [| ? ? Hcc Hcur']; subst.
    cbn [merge_from]. destruct (Qle_bool (c_start c) (c_end cur)).
    + apply IH.
      * constructor; [exact Hs'' | exact Hcur'].
      * destruct Hx as [Hx | [<- | Hx]].
        -- left. now apply within_absorb_l.
        -- left. now apply within_absorb_r.
        -- now right.
    + destruct Hx as [Hx | Hx].
      * exists cur. split; [now left | exact Hx].
      * destruct (IH c Hs') as [m [Hm Hxm]].
        { destruct Hx as [<- | Hx]; [left; apply within_refl | now right]. }
        exists m. split; [now right | exact Hxm].
Qed.

Lemma merge_pass_covers (cs : list Candidate) (x : Candidate) :
  In x cs ->
  exists m, In m (merge_pass (sort_asc c_start cs)) /\ within x m.
Proof.
  intros Hx.
  pose proof (sort_asc_sorted c_start cs) as Hs.
  assert (Hin : In x (sort_asc c_start cs)).
  { eapply Permutation_in; [symmetry; apply stable_sort_perm | exact Hx]. }
  destruct (sort_asc c_start cs) as [| c0 rest]; [contradiction |].
  rewrite merge_pass_cons. apply merge_from_covers; [exact Hs |].
  destruct Hin as [<- | Hin]; [left; apply within_refl | now right].
Qed.

Lemma slice_to_all {A : Type} (n : Z) (l : list A) :
  (Z.of_nat (List.length l) <= n)%Z -> slice_to n l = l.
Proof.
  intros H. unfold slice_to. destruct (Z.leb_spec 0 n); [| lia].
  apply firstn_all2. lia.
Qed.

(** X11: merging loses no window: the window built around a peak or a
    vocal burst lies within one interval of the merged list, and that
    interval is returned whenever the merged list has at most 7
    intervals. *)
Theorem candidates_covered (hume_data : HumeData) (time_window : Q) (c : Candidate) :
  In c (candidates_of hume_data time_window) ->
  let merged := merge_pass (sort_asc c_start (candidates_of hume_data time_window)) in
  exists m,
    In m merged /\ within c m
    /\ ((List.length merged <= 7)%nat ->
        In m (identify_punchline_candidates hume_data time_window)).
Proof.
  intros Hc merged.
  destruct (merge_pass_covers _ c Hc) as [m [Hm Hcm]].
  exists m. split; [exact Hm |]. split; [exact Hcm |].
  intros Hlen. unfold identify_punchline_candidates.
  fold merged. rewrite (slice_to_all 7 merged); [exact Hm | lia].
Qed.

Lemma candidates_covered_witness :
  exists m,
    In m (identify_punchline_candidates overlapping_record 2)
    /\ within (9, 13, "Strong Anger moment") m.
Proof.
  destruct (candidates_covered overlapping_record 2 (9, 13, "Strong Anger moment"))
    as [m [_ [Hw Hin]]].
  - left. reflexivity.
  - exists m. split; [| exact Hw]. apply Hin. vm_compute. lia.
Defined.

Lemma join_cons (sep s : string) (l : list string) :
  l <> [] -> join sep (s :: l) = (s ++ sep ++ join sep l)%string.
Proof. destruct l; [congruence | reflexivity]. Qed.

Lemma string_append_assoc (a b c : string) : ((a ++ b) ++ c = a ++ (b ++ c))%string.
Proof. induction a as [| x a IH]; cbn; [reflexivity | now rewrite IH]. Qed.

Lemma merge_from_reasons (cur : Candidate) (cs : list Candidate) :
  join " + " (map c_reason (merge_from cur cs))
  = join " + " (c_reason cur :: map c_reason cs).
Proof.
  revert cur. induction cs as [| c cs IH]; intros cur; [reflexivity |].
  cbn [merge_from map]. destruct (Qle_bool (c_start c) (c_end cur)).
  - rewrite IH. unfold absorb at 1. cbn [c_reason snd].
    destruct cs as [| c' cs]; [reflexivity |].
    cbn [map join]. now rewrite !string_append_assoc.
  - destruct (merge_from_head c cs) as [hd [tl [E _]]].
    cbn [map]. rewrite join_cons by (rewrite E; discriminate).
    rewrite IH. reflexivity.
Qed.

(** X12: merging drops and reorders no reason: the reasons of the merged
    list, joined with " + ", read the same as those of the list that went
    in. *)
Theorem merge_pass_keeps_reasons (candidates : list Candidate) :
  join " + " (map c_reason (merge_pass candidates))
  = join " + " (map c_reason candidates).
Proof.
  destruct candidates as [| c cs]; [reflexivity |].
  rewrite merge_pass_cons. apply merge_from_reasons.
Qed.

(** ** The entry points *)

Lemma format_peak_refines (repr : Py.value -> string) (p : Peak) :
  peak_ranged p -> Py.format_peak repr (Py.of_peak p) = Py.Ok [format_peak p].
Proof.
  intros [Ht Hs]. unfold Py.format_peak. cbn [Py.of_peak Py.time Py.score Py.emotion].
  now rewrite (PyFacts.format_num_ranged 0 _ Ht), (PyFacts.percent_num_ranged _ Hs).
Qed.

Lemma format_for_prompt_refines (repr : Py.value -> string) (s : Summary) :
  (forall peaks, emotional_peaks s = Some peaks -> Forall peak_ranged peaks) ->
  Py.format_for_prompt repr (Py.of_summary s) = Py.Ok (format_for_prompt s).
Proof.
  intros Hr.
  unfold Py.format_for_prompt, format_for_prompt, prompt_lines, Py.of_summary.
  cbn [Py.s_overall_mood Py.s_emotional_peaks Py.s_emotional_arc Py.s_key_moments].
  destruct (emotional_peaks s) as [[| p peaks] |]; cbn [option_map map Py.bind].
  - now destruct (overall_mood s).
  - change (Py.of_peak p :: map Py.of_peak peaks) with (map Py.of_peak (p :: peaks)).
    rewrite PyFacts.slice_to_map,
      (PyFacts.for_each_map_Forall (Py.format_peak repr) format_peak Py.of_peak).
    + cbn [Py.bind]. now destruct (overall_mood s).
    + apply slice_to_Forall.
      eapply Forall_impl; [| apply (Hr (p :: peaks) eq_refl)].
      apply format_peak_refines.
  - now destruct (overall_mood s).
Qed.

Lemma summary_peaks_ranged (hume_data : HumeData) (strategy : string) (kwargs : Options) :
  within_float_range hume_data ->
  forall peaks,
    emotional_peaks (create_emotional_summary hume_data strategy kwargs) = Some peaks ->
    Forall peak_ranged peaks.
Proof.
  intros Hr peaks. unfold create_emotional_summary.
  destruct (strategy =? "peaks")%string; [| destruct (strategy =? "transitions")%string;
    [| destruct (strategy =? "full_summary")%string]];
    cbn [emotional_peaks mood_summary]; try discriminate.
  intros [= <-]. now apply extract_peaks_ranged.
Qed.

(** X13: on a document of the input shape whose begin times and hundredfold
    scores are within the range of the floats, the formatter raises nothing
    on the summary the composer built, whatever the strategy and the
    options, and returns the text of the typed formatter. *)
Theorem format_after_compose_total
    (repr : Py.value -> string) (v : Py.value) (hume_data : HumeData)
    (strategy : string) (kwargs : Options) :
  Py.is_hume_data v hume_data ->
  within_float_range hume_data ->
  Py.bind (Py.create_emotional_summary repr v strategy kwargs) (Py.format_for_prompt repr)
  = Py.Ok (format_for_prompt (create_emotional_summary hume_data strategy kwargs)).
Proof.
  intros Hv Hr.
  rewrite (PyFacts.create_emotional_summary_refines repr v hume_data _ _ Hv (or_intror Hr)).
  cbn [Py.bind]. apply format_for_prompt_refines. now apply summary_peaks_ranged.
Qed.

Lemma format_after_compose_total_witness :
  Py.bind (Py.create_emotional_summary (fun _ => "") document "peaks" (mkOptions None None None))
          (Py.format_for_prompt (fun _ => ""))
  = Py.Ok (format_for_prompt
             (create_emotional_summary document_record "peaks" (mkOptions None None None))).
Proof.
  apply (format_after_compose_total (fun _ => "") document document_record
           "peaks" (mkOptions None None None) PyFacts.document_shape document_ranged).
Defined.

(** X14: only a parse failure is caught.  Text that parses to anything but
    an object (a list, a number, a string, [null]) makes
    [process_hume_data] raise [AttributeError], under every strategy. *)
Theorem process_non_object_raises
    (repr : Py.value -> string) (loads : string -> Py.res Py.value)
    (hume_json_str : string) (v : Py.value) (strategy : string) :
  loads hume_json_str = Py.Ok v ->
  (forall d, v <> Py.VDict d) ->
  Py.process_hume_data repr loads hume_json_str strategy = Py.Raise Py.AttributeError.
Proof.
  intros Hl Hv. unfold Py.process_hume_data. rewrite Hl.
  unfold Py.create_emotional_summary, Py.mood.
  destruct v; try reflexivity. now destruct (Hv d).
Qed.

Lemma process_non_object_raises_witness :
  Py.process_hume_data (fun _ => "") (fun _ => Py.Ok (Py.VList [])) "[]" "peaks"
  = Py.Raise Py.AttributeError.
Proof.
  apply (process_non_object_raises (fun _ => "") (fun _ => Py.Ok (Py.VList [])) "[]"
           (Py.VList []) "peaks"); [reflexivity | discriminate].
Defined.




Example document_context :
  Py.get_emotional_context (fun _ => "") (fun _ => Py.Ok document) "{...}"
  = Py.Ok ("Emotional journey: Joy → Unknown" ++ newline
             ++ "Key moments: Unknown (60%) at 0.0s, Joy (50%) at 10.0s")%string.
Proof. vm_compute. reflexivity. Qed.
